(** * Locator map: geometry helpers, regions, clustering and CSV input

    A shallow embedding of [snapshot.py] (and of the module-level script
    [main.py], which computes the same inset placement and side detection
    with the default constants).

    Number model.  Python [float] values are idealised as real numbers
    ([R]): arithmetic is exact, there is no NaN, no infinity and no
    rounding.  Where a property turns on rounding itself (whether
    [haversine_m] raises), the function is written a second time on IEEE
    binary64 floats, in the module [Binary64].  Python [int] values are [Z].  Library calls that can raise
    ([math.sqrt], [math.asin], division, [float(...)], reading a file) are
    partial: they return a [result], whose [Raise] carries the exception. *)

From Stdlib Require Import Reals Lra Lia ZArith List String Ascii Bool.
From Stdlib Require Import DecimalString.
From Stdlib Require Floats.
Import ListNotations.
Local Open Scope R_scope.

(** ** Exceptions and the error monad *)

Inductive exn : Type :=
| ValueError (msg : string)
| ZeroDivisionError (msg : string)
| FileNotFoundError (msg : string).

Inductive result (A : Type) : Type :=
| Ok (a : A)
| Raise (e : exn).
Arguments Ok {A} a.
Arguments Raise {A} e.

Definition bind {A B : Type} (c : result A) (k : A -> result B) : result B :=
  match c with
  | Ok a => k a
  | Raise e => Raise e
  end.

Notation "x <- c ;; k" := (bind c (fun x => k))
  (at level 61, c at next level, right associativity).

(** ** Python built-ins on floats *)

(** [min(a, b)]: the first argument unless the second is strictly smaller. *)
Definition py_min (a b : R) : R := if Rlt_dec b a then b else a.

(** [max(a, b)]: the first argument unless the second is strictly larger. *)
Definition py_max (a b : R) : R := if Rlt_dec a b then b else a.

(** [min(xs)] and [max(xs)] on a non-empty sequence [x :: xs]. *)
Definition py_min_seq (x : R) (xs : list R) : R := fold_left py_min xs x.
Definition py_max_seq (x : R) (xs : list R) : R := fold_left py_max xs x.

(** [sorted((a, b))]: the sort is stable, so the pair is swapped only when
    the second component is strictly smaller. *)
Definition sorted2 (a b : R) : R * R := if Rlt_dec b a then (b, a) else (a, b).

(** [x / y] on floats raises on a zero divisor. *)
Definition py_div (x y : R) : result R :=
  if Req_dec_T y 0 then Raise (ZeroDivisionError "float division by zero")
  else Ok (x / y).

Definition math_radians (x : R) : R := x * (PI / 180).

Definition math_sqrt (x : R) : result R :=
  if Rlt_dec x 0 then Raise (ValueError "math domain error") else Ok (sqrt x).

Definition math_asin (x : R) : result R :=
  if Rlt_dec x (-1) then Raise (ValueError "math domain error")
  else if Rlt_dec 1 x then Raise (ValueError "math domain error")
  else Ok (asin x).

(** ** Region *)

Record Region : Type := mkRegion {
  minimum_longitude : R;
  maximum_longitude : R;
  minimum_latitude : R;
  maximum_latitude : R
}.

Definition normalized (self : Region) : Region :=
  let '(lon0, lon1) := sorted2 (minimum_longitude self) (maximum_longitude self) in
  let '(lat0, lat1) := sorted2 (minimum_latitude self) (maximum_latitude self) in
  mkRegion lon0 lon1 lat0 lat1.

Definition as_extent (self : Region) : list R :=
  [minimum_longitude self; maximum_longitude self;
   minimum_latitude self; maximum_latitude self].

Definition DEFAULT_WORLD_REGION : Region := mkRegion (-11.0) (-5.0) 50.5 56.5.

Definition DEFAULT_ZOOM_REGION : Region :=
  mkRegion (-8.742559512271514) (-8.510014263814636)
           52.614007667018164 52.71198728589052.

(** The two layout entries of [DEFAULT_THEME]. *)
Definition DEFAULT_inset_size : R := 0.30.
Definition DEFAULT_inset_margin : R := 0.02.

(** The invariant the renderers rely on. *)
Definition ordered (r : Region) : Prop :=
  minimum_longitude r <= maximum_longitude r /\
  minimum_latitude r <= maximum_latitude r.

(** [parse_region], after [_float_list] has converted the four arguments. *)
Definition parse_region (minimum_longitude maximum_longitude
                         minimum_latitude maximum_latitude : R) : Region :=
  normalized (mkRegion minimum_longitude maximum_longitude
                       minimum_latitude maximum_latitude).

(** ** Geometry helpers *)

(** [haversine_m] over the real numbers.  In exact arithmetic the term
    under the square root lies between 0 and 1, so neither [math.sqrt] nor
    the clamp is ever put to the test here; what rounding does to them is
    the subject of [Binary64.haversine_m]. *)
Definition haversine_m (lat1 lon1 lat2 lon2 : R) : result R :=
  let r := 6371000.0 in
  let phi1 := math_radians lat1 in
  let phi2 := math_radians lat2 in
  let dphi := phi2 - phi1 in
  let dlambda := math_radians (lon2 - lon1) in
  let a := sin (dphi / 2) ^ 2 + cos phi1 * cos phi2 * sin (dlambda / 2) ^ 2 in
  s <- math_sqrt a ;;
  t <- math_asin (py_min 1.0 s) ;;
  Ok (2 * r * t).

(** [geographic_aspect] over the real numbers.  The cosine of a mean
    latitude of exactly 90 or -90 degrees is 0 here, which makes the
    denominator zero, while the rounded cosine is tiny and not zero; the
    properties below that give a value keep away from that latitude. *)
Definition geographic_aspect (region : Region) : result R :=
  let region := normalized region in
  let mean_latitude := (minimum_latitude region + maximum_latitude region) / 2 in
  let denominator :=
    (maximum_longitude region - minimum_longitude region)
    * cos (math_radians mean_latitude) in
  if Req_dec_T denominator 0 then Ok 1.0
  else py_div (maximum_latitude region - minimum_latitude region) denominator.

(** ** Point clustering *)

Definition point : Type := (R * R)%type.
Definition cluster : Type := (R * R * Z)%type.

Definition count_of (c : cluster) : Z := snd c.

(** The inner [for idx, (clat, clon, count) in enumerate(clusters)] loop for
    one point: [Some clusters'] when the point was folded into the first
    cluster within range (the loop breaks there), [None] when the scan
    reached the end with [assigned] still false. *)
Fixpoint assign_point (lat lon min_distance_m : R) (clusters : list cluster)
  : result (option (list cluster)) :=
  match clusters with
  | [] => Ok None
  | (clat, clon, count) :: rest =>
      d <- haversine_m lat lon clat clon ;;
      if Rle_dec d min_distance_m then
        let new_count := (count + 1)%Z in
        new_lat <- py_div (clat * IZR count + lat) (IZR new_count) ;;
        new_lon <- py_div (clon * IZR count + lon) (IZR new_count) ;;
        Ok (Some ((new_lat, new_lon, new_count) :: rest))
      else
        r <- assign_point lat lon min_distance_m rest ;;
        Ok (option_map (cons (clat, clon, count)) r)
  end.

(** The outer [for lat, lon in points] loop, from the clusters built so far. *)
Fixpoint cluster_loop (min_distance_m : R) (points : list point)
                      (clusters : list cluster) : result (list cluster) :=
  match points with
  | [] => Ok clusters
  | (lat, lon) :: rest =>
      r <- assign_point lat lon min_distance_m clusters ;;
      match r with
      | Some clusters' => cluster_loop min_distance_m rest clusters'
      | None => cluster_loop min_distance_m rest (clusters ++ [(lat, lon, 1%Z)])
      end
  end.

Definition cluster_points (points : list point) (min_distance_m : R)
  : result (list cluster) :=
  match points with
  | [] => Ok []
  | _ :: _ =>
      if Rle_dec min_distance_m 0 then
        Ok (map (fun '(lat, lon) => (lat, lon, 1%Z)) points)
      else cluster_loop min_distance_m points []
  end.

(** ** Auto region *)

Definition _auto_region_from_points (points : list point) : Region :=
  match points with
  | [] => normalized DEFAULT_WORLD_REGION
  | p :: ps =>
      let lat0 := py_min_seq (fst p) (map fst ps) in
      let lat1 := py_max_seq (fst p) (map fst ps) in
      let lon0 := py_min_seq (snd p) (map snd ps) in
      let lon1 := py_max_seq (snd p) (map snd ps) in
      if Rlt_dec 180 (lon1 - lon0) then
        normalized (mkRegion (-180.0) 180.0
                             (py_max (-80.0) (lat0 - 5.0))
                             (py_min 80.0 (lat1 + 5.0)))
      else
        let lat_span := py_max 0.01 (lat1 - lat0) in
        let lon_span := py_max 0.01 (lon1 - lon0) in
        let lat_pad := py_max 0.5 (lat_span * 0.35) in
        let lon_pad := py_max 0.5 (lon_span * 0.35) in
        normalized (mkRegion (lon0 - lon_pad) (lon1 + lon_pad)
                             (lat0 - lat_pad) (lat1 + lat_pad))
  end.

(** The regions the two renderers draw: [render_map] normalizes both of its
    regions on entry, [render_summary_map] derives its region from the
    points. *)
Definition render_map_regions (world_region zoom_region : Region)
  : Region * Region :=
  (normalized world_region, normalized zoom_region).

Definition render_summary_map_region (points_lat_lon : list point) : Region :=
  _auto_region_from_points points_lat_lon.

(** ** Detail renderer: inset placement and side detection *)

(** [x0 = min(max(x_fig + inset_margin, inset_margin), 1 - inset_size - inset_margin)],
    the same expression on each axis. *)
Definition inset_corner (fig inset_size inset_margin : R) : R :=
  py_min (py_max (fig + inset_margin) inset_margin)
         (1 - inset_size - inset_margin).

(** The bounding box of the inset axes in figure fractions: [(x0, y0)] is the
    lower-left corner and [(x1, y1)] the upper-right one. *)
Record Bbox : Type := mkBbox {
  x0 : R;
  y0 : R;
  x1 : R;
  y1 : R
}.

(** The rectangle [[x0, y0, inset_size, inset_size]] handed to
    [fig.add_axes]: the room requested for the inset axes.  The panel that
    is drawn, and that [get_position()] reports, is fitted into this room by
    the equal aspect of the axes; it is not computed here. *)
Definition inset_rect (cx cy inset_size : R) : Bbox :=
  mkBbox cx cy (cx + inset_size) (cy + inset_size).

Inductive side : Type := below | above | left_ | right_.

Definition eps : R := 0.005.

(** The [if/elif] chain on the inset box and the rectangle's interval. *)
Definition side_of (inset_bbox : Bbox)
                   (rect_xmin rect_xmax rect_ymin rect_ymax : R) : side :=
  if Rge_dec (y0 inset_bbox) (rect_ymax + eps) then below
  else if Rle_dec (y1 inset_bbox) (rect_ymin - eps) then above
  else if Rle_dec (x1 inset_bbox) (rect_xmin - eps) then right_
  else if Rge_dec (x0 inset_bbox) (rect_xmax + eps) then left_
  else above.

(** Side detection from the two transformed corners [(rx0, ry0)] and
    [(rx1, ry1)] of the zoom rectangle. *)
Definition detect_side (inset_bbox : Bbox) (rx0 ry0 rx1 ry1 : R) : side :=
  let rect_xmin := py_min rx0 rx1 in
  let rect_xmax := py_max rx0 rx1 in
  let rect_ymin := py_min ry0 ry1 in
  let rect_ymax := py_max ry0 ry1 in
  side_of inset_bbox rect_xmin rect_xmax rect_ymin rect_ymax.

(** Where the title goes for each label: the anchor on the rectangle (as
    longitude, latitude), the vertical alignment and the offset in points. *)
Inductive valign : Type := va_top | va_bottom | va_center.
Inductive halign : Type := ha_left | ha_right.

Definition title_anchor (pos : side) (zoom_region : Region)
  : (R * R) * (halign * valign) * (Z * Z) :=
  match pos with
  | below =>
      ((minimum_longitude zoom_region, minimum_latitude zoom_region),
       (ha_left, va_top), (5, -5)%Z)
  | above =>
      ((minimum_longitude zoom_region, maximum_latitude zoom_region),
       (ha_left, va_bottom), (5, 5)%Z)
  | left_ =>
      ((minimum_longitude zoom_region,
        (minimum_latitude zoom_region + maximum_latitude zoom_region) / 2),
       (ha_right, va_center), (-5, 0)%Z)
  | right_ =>
      ((maximum_longitude zoom_region,
        (minimum_latitude zoom_region + maximum_latitude zoom_region) / 2),
       (ha_left, va_center), (5, 0)%Z)
  end.

(** ** Reading the points file *)

Local Open Scope string_scope.

(** [str.isspace] on the ASCII range: tab to carriage return, the four
    separators 0x1c-0x1f and the space. *)
Definition is_space (c : ascii) : bool :=
  let n := nat_of_ascii c in
  ((9 <=? n) && (n <=? 13) || (28 <=? n) && (n <=? 32))%nat.

(** The line boundaries of [str.splitlines] on the ASCII range. *)
Definition is_linebreak (c : ascii) : bool :=
  let n := nat_of_ascii c in
  ((10 <=? n) && (n <=? 13) || (28 <=? n) && (n <=? 30))%nat.

Definition LF : ascii := ascii_of_nat 10.
Definition CR : ascii := ascii_of_nat 13.

Fixpoint lstrip (s : string) : string :=
  match s with
  | EmptyString => EmptyString
  | String c s' => if is_space c then lstrip s' else s
  end.

Fixpoint rstrip (s : string) : string :=
  match s with
  | EmptyString => EmptyString
  | String c s' =>
      match rstrip s' with
      | EmptyString => if is_space c then EmptyString else String c EmptyString
      | t => String c t
      end
  end.

(** [s.strip()] *)
Definition strip (s : string) : string := rstrip (lstrip s).

(** Prepend a character to the line being read. *)
Definition push_char (c : ascii) (ls : list string) : list string :=
  match ls with
  | [] => [String c EmptyString]
  | l :: ls' => String c l :: ls'
  end.

(** [s.splitlines()]: [after_cr] is set just after a carriage return, whose
    following line feed belongs to the same boundary. *)
Fixpoint splitlines_from (after_cr : bool) (s : string) : list string :=
  match s with
  | EmptyString => []
  | String c s' =>
      if after_cr && Ascii.eqb c LF then splitlines_from false s'
      else if is_linebreak c then EmptyString :: splitlines_from (Ascii.eqb c CR) s'
      else push_char c (splitlines_from false s')
  end.

Definition splitlines (s : string) : list string := splitlines_from false s.

(** [s.split(sep)] for a one-character separator: never empty. *)
Fixpoint split (sep : ascii) (s : string) : list string :=
  match s with
  | EmptyString => [EmptyString]
  | String c s' =>
      if Ascii.eqb c sep then EmptyString :: split sep s'
      else push_char c (split sep s')
  end.

(** [s.startswith(c)] for a one-character prefix. *)
Definition startswith (c : ascii) (s : string) : bool :=
  match s with
  | EmptyString => false
  | String d _ => Ascii.eqb d c
  end.

Definition is_empty (s : string) : bool :=
  match s with
  | EmptyString => true
  | String _ _ => false
  end.

(** The built-in [float(s)], given the function [float_of] that says which
    strings are numbers and [repr] that quotes a string: on any other string
    it raises the built-in's own value error, which quotes its argument. *)
Definition py_float (float_of : string -> option R) (repr : string -> string)
                    (s : string) : result R :=
  match float_of s with
  | Some v => Ok v
  | None => Raise (ValueError ("could not convert string to float: " ++ repr s))
  end.

(** The two value errors the loop can end in: its own, for a line that has
    not two fields, and the built-in's, for a field that is not a number. *)
Definition invalid_line (repr : string -> string) (raw : string) : exn :=
  ValueError ("Invalid points line (expected 'lat,lon'): " ++ repr raw).

Definition not_a_float (repr : string -> string) (field : string) : exn :=
  ValueError ("could not convert string to float: " ++ repr field).

(** The [for raw in ...splitlines()] loop, from the points read so far. *)
Fixpoint read_lines (float_of : string -> option R) (repr : string -> string)
                    (lines : list string) (points : list point)
  : result (list point) :=
  match lines with
  | [] => Ok points
  | raw :: rest =>
      let line := strip raw in
      if is_empty line || startswith "#" line then
        read_lines float_of repr rest points
      else
        let parts := map strip (split "," line) in
        if negb (List.length parts =? 2)%nat then
          Raise (ValueError ("Invalid points line (expected 'lat,lon'): " ++ repr raw))
        else
          lat <- py_float float_of repr (nth 0 parts EmptyString) ;;
          lon <- py_float float_of repr (nth 1 parts EmptyString) ;;
          read_lines float_of repr rest (points ++ [(lat, lon)])
  end.

(** [_read_points_csv].  [path_str path] is [str(Path(path))], the form in
    which the message prints the path.  [fs path] is nothing when there is
    no regular file at [path]; otherwise it is what [read_text] gives for
    it: the text, or the exception it raises (for bytes that are not UTF-8
    a [UnicodeDecodeError], which is a [ValueError]). *)
Definition _read_points_csv (float_of : string -> option R) (repr : string -> string)
                            (path_str : string -> string)
                            (fs : string -> option (result string))
                            (path : string)
  : result (list point) :=
  match fs path with
  | None => Raise (FileNotFoundError ("Points file not found: " ++ path_str path))
  | Some contents =>
      text <- contents ;;
      read_lines float_of repr (splitlines text) []
  end.

(** *** The words of the specification about the points file *)

(** A line is kept unless it is blank or its stripped text starts with [#]. *)
Definition kept (raw : string) : bool :=
  negb (is_empty (strip raw)) && negb (startswith "#" (strip raw)).

(** The comma-separated fields of a line, stripped. *)
Definition fields (raw : string) : list string :=
  map strip (split "," (strip raw)).

(** Exactly two comma-separated numeric fields, and the pair they denote. *)
Definition pair_of (float_of : string -> option R) (raw : string) : option point :=
  match fields raw with
  | [a; b] =>
      match float_of a, float_of b with
      | Some lat, Some lon => Some (lat, lon)
      | _, _ => None
      end
  | _ => None
  end.

Definition well_formed (float_of : string -> option R) (raw : string) : Prop :=
  exists p, pair_of float_of raw = Some p.

(** An error message cites a line when it ends with the quoted line. *)
Definition cites (repr : string -> string) (msg raw : string) : Prop :=
  exists pre, msg = pre ++ repr raw.

(** Two stand-ins for the built-ins, exact on the inputs they are used at:
    [float()] on unsigned decimal integers of one digit, and [repr] on
    strings of printable ASCII without quote or backslash. *)
Definition digit_float (s : string) : option R :=
  match s with
  | String c EmptyString =>
      let n := nat_of_ascii c in
      if ((48 <=? n) && (n <=? 57))%nat then Some (IZR (Z.of_nat (n - 48)))
      else None
  | _ => None
  end.

Definition plain_repr (s : string) : string := "'" ++ s ++ "'".

(** [str(Path(p))] on a path that is written in its normal form. *)
Definition plain_path (p : string) : string := p.

(** A points file of one line, [1,x]. *)
Definition one_bad_field (path : string) : option (result string) :=
  Some (Ok "1,x").

(** A points file of one line with three fields, [1,x,3]. *)
Definition three_fields (path : string) : option (result string) :=
  Some (Ok "1,x,3").

(** A directory with the one file [points.csv]: a comment, two points and a
    blank line. *)
Definition one_good_file (path : string) : option (result string) :=
  if String.eqb path "points.csv"
  then Some (Ok ("# home" ++ String LF "1,2" ++ String LF (String CR "")
                 ++ String LF " 3 , 4 " ++ String LF ""))
  else None.

(** [msg.endswith(suffix)], on the reversed character lists. *)
Fixpoint prefix_of (p l : list ascii) : bool :=
  match p, l with
  | [], _ => true
  | _ :: _, [] => false
  | a :: p', b :: l' => Ascii.eqb a b && prefix_of p' l'
  end.

Definition endswith (suffix s : string) : bool :=
  prefix_of (rev (list_ascii_of_string suffix)) (rev (list_ascii_of_string s)).

Local Close Scope string_scope.

(** ** Arithmetic mean, for the clustering centroid *)





(** The sum of the member counts of a cluster list. *)
Definition total_count (clusters : list cluster) : Z :=
  fold_right (fun c acc => (count_of c + acc)%Z) 0%Z clusters.

(** A point as the singleton cluster it starts. *)
Definition singleton (p : point) : cluster := (fst p, snd p, 1%Z).

(** ** Summary renderer *)

(** [max(1, count)] on integers. *)
Definition py_max_int (a b : Z) : Z := if (a <? b)%Z then b else a.

Definition math_log10 (x : R) : result R :=
  if Rle_dec x 0 then Raise (ValueError "math domain error")
  else Ok (ln x / ln 10).

(** [ms = 7.0 + min(6.0, 1.5 * math.log10(max(1, count)))] *)
Definition marker_size (count : Z) : result R :=
  l <- math_log10 (IZR (py_max_int 1 count)) ;;
  Ok (7.0 + py_min 6.0 (1.5 * l)).

(** The [for lat, lon, count in clusters] loop: each marker as it is handed
    to [ax.plot], longitude first, with its size. *)
Fixpoint plot_clusters (clusters : list cluster) : result (list (R * R * R)) :=
  match clusters with
  | [] => Ok []
  | (lat, lon, count) :: rest =>
      ms <- marker_size count ;;
      markers <- plot_clusters rest ;;
      Ok ((lon, lat, ms) :: markers)
  end.

(** What [render_summary_map] draws on its axes: the extent handed to
    [set_extent] and the markers handed to [ax.plot].  The size of the
    figure, which is computed beforehand from [geographic_aspect], and the
    library calls themselves are outside the model. *)
Record summary_figure : Type := mkSummaryFigure {
  extent : list R;
  markers : list (R * R * R)
}.

Definition render_summary_map (points_lat_lon : list point)
                              (min_distance_m : R)
  : result summary_figure :=
  let world_region := _auto_region_from_points points_lat_lon in
  clusters <- cluster_points points_lat_lon min_distance_m ;;
  markers <- plot_clusters clusters ;;
  Ok (mkSummaryFigure (as_extent world_region) markers).

(** A point lies inside a region, borders included. *)
Definition inside (r : Region) (lat lon : R) : Prop :=
  minimum_longitude r <= lon <= maximum_longitude r /\
  minimum_latitude r <= lat <= maximum_latitude r.

(** The extremes of the latitudes and longitudes of [p :: ps]. *)
Definition lat_lo (p : point) (ps : list point) : R := py_min_seq (fst p) (map fst ps).
Definition lat_hi (p : point) (ps : list point) : R := py_max_seq (fst p) (map fst ps).
Definition lon_lo (p : point) (ps : list point) : R := py_min_seq (snd p) (map snd ps).
Definition lon_hi (p : point) (ps : list point) : R := py_max_seq (snd p) (map snd ps).

(** A point is within range of a cluster when its distance to the centroid
    is at most the limit. *)
Definition within (lat lon min_distance_m : R) (c : cluster) : Prop :=
  exists d, haversine_m lat lon (fst (fst c)) (snd (fst c)) = Ok d /\
            d <= min_distance_m.

(** A cluster after a point has been folded into it. *)
Definition absorb (lat lon : R) (c : cluster) : cluster :=
  let '(clat, clon, count) := c in
  ((clat * IZR count + lat) / IZR (count + 1),
   (clon * IZR count + lon) / IZR (count + 1),
   (count + 1)%Z).

(** Every later point is farther than the limit from every earlier one. *)
Definition far_apart (min_distance_m : R) (points : list point) : Prop :=
  forall pre p post q d,
    points = pre ++ p :: post -> In q pre ->
    haversine_m (fst p) (snd p) (fst q) (snd q) = Ok d ->
    min_distance_m < d.

(** A box of latitudes and longitudes. *)
Definition in_box (lat_min lat_max lon_min lon_max : R) (lat lon : R) : Prop :=
  lat_min <= lat <= lat_max /\ lon_min <= lon <= lon_max.

(** ** The script [main.py] *)

(** [geographic_aspect(lon_min, lon_max, lat_min, lat_max)] of the script:
    no normalization and no guard. *)
Definition script_geographic_aspect (lon_min lon_max lat_min lat_max : R)
  : result R :=
  let mean_lat := (lat_min + lat_max) / 2 in
  py_div (lat_max - lat_min)
         ((lon_max - lon_min) * cos (math_radians mean_lat)).

(** ** Command-line values *)

(** The outcome of a conversion called by the argument parser: a value, the
    parser's own [ArgumentTypeError], or any other exception, which is not
    caught. *)
Inductive cli_result (A : Type) : Type :=
| Parsed (a : A)
| ArgumentTypeError (msg : string)
| Uncaught (e : exn).
Arguments Parsed {A} a.
Arguments ArgumentTypeError {A} msg.
Arguments Uncaught {A} e.

(** [str(n)] on a length. *)
Definition str_of_nat (n : nat) : string :=
  NilZero.string_of_uint (Nat.to_uint n).

(** [[float(v) for v in vals]] *)
Fixpoint float_each (float_of : string -> option R) (repr : string -> string)
                    (vals : list string) : result (list R) :=
  match vals with
  | [] => Ok []
  | v :: rest =>
      x <- py_float float_of repr v ;;
      xs <- float_each float_of repr rest ;;
      Ok (x :: xs)
  end.

Definition _float_list (float_of : string -> option R) (repr : string -> string)
                       (values : list string) (count : nat) (name : string)
  : cli_result (list R) :=
  let vals := values in
  if negb (List.length vals =? count)%nat then
    ArgumentTypeError (name ++ " expects " ++ str_of_nat count
                       ++ " numbers, got " ++ str_of_nat (List.length vals))%string
  else
    match float_each float_of repr vals with
    | Ok xs => Parsed xs
    | Raise (ValueError e) =>
        ArgumentTypeError (name ++ " expects floats: " ++ e)%string
    | Raise e => Uncaught e
    end.

(** [parse_region(values)] on the strings of the command line; the unpacking
    of the four floats raises when their number is not four. *)
Definition parse_region_values (float_of : string -> option R)
                               (repr : string -> string) (values : list string)
  : cli_result Region :=
  match _float_list float_of repr values 4 "region" with
  | Parsed [a; b; c; d] => Parsed (parse_region a b c d)
  | Parsed _ => Uncaught (ValueError "wrong number of values to unpack")
  | ArgumentTypeError msg => ArgumentTypeError msg
  | Uncaught e => Uncaught e
  end.

Definition parse_lat_lon (float_of : string -> option R)
                         (repr : string -> string) (values : list string)
  : cli_result (R * R) :=
  match _float_list float_of repr values 2 "lat/lon" with
  | Parsed [latitude; longitude] => Parsed (latitude, longitude)
  | Parsed _ => Uncaught (ValueError "wrong number of values to unpack")
  | ArgumentTypeError msg => ArgumentTypeError msg
  | Uncaught e => Uncaught e
  end.

(** ** Theme *)

(** The values of a theme: what [json.loads] can return. *)
#[local] Unset Elimination Schemes.
#[local] Set Elimination Schemes.











(** A string of white space only. *)
Definition blank (s : string) : Prop := lstrip s = EmptyString.

(** A position of the figure lies on a box, borders included. *)
Definition covers (b : Bbox) (x y : R) : Prop :=
  x0 b <= x <= x1 b /\ y0 b <= y <= y1 b.

(** The room [render_map] requests for the inset of a marker at
    [(x_fig, y_fig)]. *)
Definition requested_inset (x_fig y_fig inset_size inset_margin : R) : Bbox :=
  inset_rect (inset_corner x_fig inset_size inset_margin)
             (inset_corner y_fig inset_size inset_margin)
             inset_size.

(** One box lies within another. *)
Definition fits_in (inner outer : Bbox) : Prop :=
  x0 outer <= x0 inner /\ x1 inner <= x1 outer /\
  y0 outer <= y0 inner /\ y1 inner <= y1 outer.

(** ** The great-circle distance on binary64 floats

    Whether [haversine_m] raises depends on rounding, which the real
    numbers above do not show.  Here the same function is written on IEEE
    binary64 floats: the arithmetic, the comparisons and the square root
    are the correctly rounded ones of the primitive floats; the functions
    of the C library that Python calls, and the power operator, are taken
    as they come, each returning a float or raising. *)

Module Binary64.

Import Floats.

Record libm : Type := mkLibm {
  math_sin : float -> result float;
  math_cos : float -> result float;
  math_asin : float -> result float;
  pow2 : float -> result float
}.

(** [math.pi / 180.0], the constant of [math.radians]. *)
Definition deg_to_rad : float := (0x1.921fb54442d18p+1 / 180)%float.

Definition math_radians (x : float) : float := (x * deg_to_rad)%float.

(** [math.sqrt]: a domain error on a negative argument (worded as CPython
    3.11 words it); a NaN and a negative zero pass through. *)
Definition math_sqrt (x : float) : result float :=
  if (x <? 0)%float then Raise (ValueError "math domain error")
  else Ok (PrimFloat.sqrt x).

(** [min(a, b)]: the first argument unless the second is strictly smaller. *)
Definition py_min (a b : float) : float := if (b <? a)%float then b else a.

(** The line [a = math.sin(dphi / 2) ** 2 + math.cos(phi1) * math.cos(phi2)
    * math.sin(dlambda / 2) ** 2], operand by operand from left to right. *)
Definition haversine_term (L : libm) (lat1 lon1 lat2 lon2 : float)
  : result float :=
  let phi1 := math_radians lat1 in
  let phi2 := math_radians lat2 in
  let dphi := (phi2 - phi1)%float in
  let dlambda := math_radians (lon2 - lon1)%float in
  s1 <- math_sin L (dphi / 2)%float ;;
  q1 <- pow2 L s1 ;;
  c1 <- math_cos L phi1 ;;
  c2 <- math_cos L phi2 ;;
  s2 <- math_sin L (dlambda / 2)%float ;;
  q2 <- pow2 L s2 ;;
  Ok (q1 + c1 * c2 * q2)%float.

Definition haversine_m (L : libm) (lat1 lon1 lat2 lon2 : float)
  : result float :=
  let r := 6371000.0%float in
  a <- haversine_term L lat1 lon1 lat2 lon2 ;;
  s <- math_sqrt a ;;
  t <- math_asin L (py_min 1.0%float s) ;;
  Ok (2 * r * t)%float.

(** [math.asin] returns on every argument that is neither below -1 nor
    above 1 (a NaN among them). *)
Definition asin_defined (L : libm) : Prop :=
  forall x : float,
    (x <? -1)%float = false -> (1 <? x)%float = false ->
    exists t, math_asin L x = Ok t.

(** A function given by a table of arguments and values. *)
Fixpoint tabulated (table : list (float * float)) (x : float) : result float :=
  match table with
  | [] => Raise (ValueError "argument outside the table")
  | (arg, val) :: rest =>
      if (x =? arg)%float then Ok val else tabulated rest x
  end.

(** A stand-in for the C library, exact on the arguments it is used at:
    the correctly rounded sines, cosines and squares that the two examples
    [haversine_m(91, 0, 89, 180)] and [haversine_m(2.5, 0, -2.5, 180)]
    need; the inverse sine is exact at 1 and, inside its domain, the
    identity elsewhere. *)
Definition sample_libm : libm :=
  mkLibm
    (tabulated [(-0x1.1df46a2529d40p-6, -0x1.1df0b2b89dd25p-6);
                (-0x1.657184ae74487p-5, -0x1.65547c4694e11p-5);
                (0x1.921fb54442d18p+0, 1.0)]%float)
    (tabulated [(0x1.969786ecd778dp+0, -0x1.1df0b2b89dd14p-6);
                (0x1.8da7e39bae2a3p+0, 0x1.1df0b2b89dd37p-6);
                (0x1.657184ae74487p-5, 0x1.ff833f9da45f7p-1);
                (-0x1.657184ae74487p-5, 0x1.ff833f9da45f7p-1)]%float)
    (fun x =>
       if (x =? 1)%float then Ok 0x1.921fb54442d18p+0%float
       else if ((x <? -1) || (1 <? x))%float
            then Raise (ValueError "math domain error")
            else Ok x)
    (tabulated [(-0x1.1df0b2b89dd25p-6, 0x1.3f61d03ea6537p-12);
                (-0x1.65547c4694e11p-5, 0x1.f2c4be7ea5e1ep-10);
                (1.0, 1.0)]%float).

End Binary64.

(** * Properties *)

(** ** Built-ins *)

Lemma py_min_Rmin (a b : R) : py_min a b = Rmin a b.
Proof.
  unfold py_min, Rmin.
  destruct (Rlt_dec b a), (Rle_dec a b); lra.
Qed.

Lemma py_max_Rmax (a b : R) : py_max a b = Rmax a b.
Proof.
  unfold py_max, Rmax.
  destruct (Rlt_dec a b), (Rle_dec a b); lra.
Qed.

Lemma py_min_le (a b : R) : py_min a b <= a /\ py_min a b <= b.
Proof. unfold py_min. destruct (Rlt_dec b a); lra. Qed.

Lemma py_max_ge (a b : R) : a <= py_max a b /\ b <= py_max a b.
Proof. unfold py_max. destruct (Rlt_dec a b); lra. Qed.

Lemma py_min_le_max (a b : R) : py_min a b <= py_max a b.
Proof.
  pose proof (py_min_le a b). pose proof (py_max_ge a b). lra.
Qed.

Lemma sorted2_spec (a b : R) : sorted2 a b = (Rmin a b, Rmax a b).
Proof.
  unfold sorted2, Rmin, Rmax.
  destruct (Rlt_dec b a), (Rle_dec a b); try lra; f_equal; lra.
Qed.

Lemma sorted2_swap (a b : R) : sorted2 a b = sorted2 b a.
Proof.
  rewrite !sorted2_spec. now rewrite Rmin_comm, Rmax_comm.
Qed.

Lemma py_min_seq_le_max_seq (x : R) (xs : list R) :
  py_min_seq x xs <= py_max_seq x xs.
Proof.
  unfold py_min_seq, py_max_seq.
  assert (G : forall l lo hi, lo <= hi ->
              fold_left py_min l lo <= fold_left py_max l hi).
  { induction l as [|y l IH]; intros lo hi Hle; simpl; [exact Hle|].
    apply IH.
    pose proof (py_min_le lo y). pose proof (py_max_ge hi y). lra. }
  apply G. lra.
Qed.

(** ** Region *)

Lemma normalized_fields (r : Region) :
  normalized r =
  mkRegion (Rmin (minimum_longitude r) (maximum_longitude r))
           (Rmax (minimum_longitude r) (maximum_longitude r))
           (Rmin (minimum_latitude r) (maximum_latitude r))
           (Rmax (minimum_latitude r) (maximum_latitude r)).
Proof.
  unfold normalized. now rewrite !sorted2_spec.
Qed.

Lemma normalized_is_ordered (r : Region) : ordered (normalized r).
Proof.
  rewrite normalized_fields. unfold ordered; simpl.
  split; (eapply Rle_trans; [apply Rmin_l | apply Rmax_l]).
Qed.

Lemma normalized_of_ordered (r : Region) : ordered r -> normalized r = r.
Proof.
  intros [Hlon Hlat]. rewrite normalized_fields.
  rewrite !Rmin_left, !Rmax_right by assumption.
  now destruct r.
Qed.

Lemma normalized_idempotent (r : Region) : normalized (normalized r) = normalized r.
Proof. apply normalized_of_ordered, normalized_is_ordered. Qed.

Lemma auto_region_ordered (points : list point) :
  ordered (_auto_region_from_points points).
Proof.
  unfold _auto_region_from_points.
  destruct points as [|p ps]; [apply normalized_is_ordered|].
  cbv zeta. destruct (Rlt_dec 180 _); apply normalized_is_ordered.
Qed.

(** C2, as stated, at the claim's own example: the constructor of the frozen
    dataclass stores its arguments as given, so [Region(1, 0, 5, 3)] has its
    minimum above its maximum on both axes. *)
Lemma Region_constructor_not_ordered :
  ~ (forall a b c d : R, ordered (mkRegion a b c d)).
Proof.
  intros H. destruct (H 1 0 5 3) as [Hlon _]. simpl in Hlon. lra.
Qed.

(** C2, amended: for any four floats, [Region(...).normalized()] has
    minimum <= maximum on both axes whatever the input order;
    [Region(1, 0, 5, 3).normalized()] is longitude [0, 1] and latitude
    [3, 5]; [parse_region] returns a normalized region, and every region
    the two renderers draw is normalized. *)
Theorem normalized_min_le_max :
  (forall a b c d : R, ordered (normalized (mkRegion a b c d))) /\
  normalized (mkRegion 1 0 5 3) = mkRegion 0 1 3 5 /\
  (forall a b c d : R, ordered (parse_region a b c d)) /\
  (forall world_region zoom_region : Region,
      ordered (fst (render_map_regions world_region zoom_region)) /\
      ordered (snd (render_map_regions world_region zoom_region))) /\
  (forall points : list point, ordered (render_summary_map_region points)).
Proof.
  repeat split; intros; try apply normalized_is_ordered;
    try apply auto_region_ordered.
  rewrite normalized_fields; simpl.
  rewrite !Rmin_right, !Rmax_left by lra. reflexivity.
Qed.

(** C10: on an empty point set the auto region is the default world region
    [Region(-11.0, -5.0, 50.5, 56.5)], which normalization leaves as it is:
    no failure and a region of positive span on both axes. *)
Theorem auto_region_empty :
  _auto_region_from_points [] = mkRegion (-11.0) (-5.0) 50.5 56.5 /\
  _auto_region_from_points [] = DEFAULT_WORLD_REGION /\
  minimum_longitude (_auto_region_from_points []) <
    maximum_longitude (_auto_region_from_points []) /\
  minimum_latitude (_auto_region_from_points []) <
    maximum_latitude (_auto_region_from_points []).
Proof.
  assert (E : _auto_region_from_points [] = DEFAULT_WORLD_REGION).
  { unfold _auto_region_from_points.
    apply normalized_of_ordered. unfold ordered; simpl. lra. }
  rewrite E. unfold DEFAULT_WORLD_REGION; simpl.
  repeat split; lra.
Qed.

(** ** Aspect ratio *)

Lemma normalized_swap (a b c d : R) :
  normalized (mkRegion a b c d) = normalized (mkRegion b a d c).
Proof.
  unfold normalized; simpl.
  now rewrite (sorted2_swap a b), (sorted2_swap c d).
Qed.

(** The degenerate guard does its work: the division is never by zero. *)
Lemma geographic_aspect_total (region : Region) :
  exists v, geographic_aspect region = Ok v.
Proof.
  unfold geographic_aspect, py_div. cbv zeta.
  destruct (Req_dec_T _ 0) as [E|N]; eexists; reflexivity.
Qed.

(** C5: [geographic_aspect] gives the same result on [Region(a, b, c, d)]
    and on [Region(b, a, d, c)], and it returns exactly 1.0 whenever the
    longitude span of its region is 0. *)
Theorem geographic_aspect_swap_and_flat :
  (forall a b c d : R,
      geographic_aspect (mkRegion a b c d) = geographic_aspect (mkRegion b a d c)) /\
  (forall region : Region,
      maximum_longitude region - minimum_longitude region = 0 ->
      geographic_aspect region = Ok 1.0).
Proof.
  split.
  - intros a b c d. unfold geographic_aspect.
    now rewrite (normalized_swap a b c d).
  - intros region Hspan. unfold geographic_aspect. cbv zeta.
    rewrite normalized_fields; simpl.
    assert (E : Rmax (minimum_longitude region) (maximum_longitude region)
                - Rmin (minimum_longitude region) (maximum_longitude region) = 0).
    { replace (maximum_longitude region) with (minimum_longitude region) by lra.
      unfold Rmax, Rmin. destruct (Rle_dec _ _); lra. }
    rewrite E, Rmult_0_l.
    destruct (Req_dec_T 0 0) as [_|N]; [reflexivity|contradiction].
Qed.

Lemma geographic_aspect_swap_and_flat_witness :
  maximum_longitude (mkRegion 2 2 0 1) - minimum_longitude (mkRegion 2 2 0 1) = 0 /\
  geographic_aspect (mkRegion 2 2 0 1) = Ok 1.0.
Proof.
  split.
  - simpl. lra.
  - apply (proj2 geographic_aspect_swap_and_flat). simpl. lra.
Defined.

(** ** Inset placement *)

Lemma inset_corner_upper (fig inset_size inset_margin : R) :
  inset_corner fig inset_size inset_margin <= 1 - inset_size - inset_margin.
Proof. unfold inset_corner. apply py_min_le. Qed.

Lemma inset_corner_lower (fig inset_size inset_margin : R) :
  inset_margin <= inset_corner fig inset_size inset_margin <->
  inset_size + 2 * inset_margin <= 1.
Proof.
  unfold inset_corner.
  pose proof (py_max_ge (fig + inset_margin) inset_margin) as [_ Hm].
  unfold py_min. destruct (Rlt_dec _ _); split; intros; lra.
Qed.

(** C7, as stated, at a theme that overrides [inset_size] with 0.99: the
    clamp range [0.02, -0.01] is empty and the corner is -0.01. *)
Lemma inset_corner_escapes_wide_theme :
  ~ (forall fig inset_size inset_margin : R,
        inset_margin <= inset_corner fig inset_size inset_margin
        <= 1 - inset_size - inset_margin).
Proof.
  intros H. destruct (H 0.5 0.99 0.02) as [Hlo _].
  apply inset_corner_lower in Hlo. lra.
Qed.

(** C7, amended: for every marker position the corner is at most
    [1 - inset_size - margin] on each axis, and it is at least [margin]
    exactly when [inset_size + 2 * margin <= 1]; so for a theme with
    [inset_size + 2 * margin <= 1] and [margin >= 0], the defaults 0.30 and
    0.02 among them, the corner lies in [margin, 1 - inset_size - margin]
    and the inset panel stays inside the figure. *)
Theorem inset_corner_clamped :
  forall x_fig y_fig inset_size inset_margin : R,
    inset_size + 2 * inset_margin <= 1 ->
    let x0 := inset_corner x_fig inset_size inset_margin in
    let y0 := inset_corner y_fig inset_size inset_margin in
    (inset_margin <= x0 <= 1 - inset_size - inset_margin) /\
    (inset_margin <= y0 <= 1 - inset_size - inset_margin) /\
    (0 <= inset_margin ->
     0 <= x0 /\ x0 + inset_size <= 1 /\ 0 <= y0 /\ y0 + inset_size <= 1).
Proof.
  intros x_fig y_fig inset_size inset_margin Hfit x0 y0.
  pose proof (inset_corner_upper x_fig inset_size inset_margin) as Hx.
  pose proof (inset_corner_upper y_fig inset_size inset_margin) as Hy.
  pose proof (proj2 (inset_corner_lower x_fig inset_size inset_margin) Hfit) as Lx.
  pose proof (proj2 (inset_corner_lower y_fig inset_size inset_margin) Hfit) as Ly.
  subst x0 y0. repeat split; try assumption; lra.
Qed.

Lemma inset_corner_clamped_defaults :
  DEFAULT_inset_size + 2 * DEFAULT_inset_margin <= 1 /\
  (DEFAULT_inset_margin
   <= inset_corner 0.9 DEFAULT_inset_size DEFAULT_inset_margin
   <= 1 - DEFAULT_inset_size - DEFAULT_inset_margin).
Proof.
  assert (H : DEFAULT_inset_size + 2 * DEFAULT_inset_margin <= 1)
    by (unfold DEFAULT_inset_size, DEFAULT_inset_margin; lra).
  split; [exact H|].
  exact (proj1 (inset_corner_clamped 0.9 0.1 DEFAULT_inset_size
                                     DEFAULT_inset_margin H)).
Defined.

(** ** Side detection *)

(** C1, as stated, with the inset entirely below the rectangle (inset
    [0.1, 0.4] x [0.1, 0.4], rectangle [0.5, 0.6] x [0.5, 0.6]): the label is
    [above], not [below]. *)
Lemma inset_below_is_labelled_above :
  ~ (forall (inset_bbox : Bbox) (rx0 ry0 rx1 ry1 : R),
        y0 inset_bbox <= y1 inset_bbox ->
        y1 inset_bbox < py_min ry0 ry1 - eps ->
        detect_side inset_bbox rx0 ry0 rx1 ry1 = below).
Proof.
  intros H.
  specialize (H (mkBbox 0.1 0.1 0.4 0.4) 0.5 0.5 0.6 0.6).
  unfold detect_side, side_of, py_min, py_max, eps in H. simpl in H.
  destruct (Rlt_dec 0.6 0.5); [lra|].
  destruct (Rlt_dec 0.5 0.6); [|lra].
  destruct (Rge_dec 0.1 (0.6 + 0.005)); [lra|].
  destruct (Rle_dec 0.4 (0.5 - 0.005)); [|lra].
  assert (E : above = below) by (apply H; lra).
  discriminate E.
Qed.

(** C1, amended: the label names the side of the rectangle on which the
    title is put, away from the inset.  An inset whose lower edge is at
    least epsilon (0.005) above the rectangle's upper edge gives [below];
    an inset whose upper edge is at least epsilon below the rectangle's
    lower edge gives [above]; and when none of the four conditions holds
    (the boxes overlap, say) the label is [above]. *)
Theorem detect_side_labels :
  forall (inset_bbox : Bbox) (rx0 ry0 rx1 ry1 : R),
    let rect_xmin := py_min rx0 rx1 in
    let rect_xmax := py_max rx0 rx1 in
    let rect_ymin := py_min ry0 ry1 in
    let rect_ymax := py_max ry0 ry1 in
    (y0 inset_bbox >= rect_ymax + eps ->
     detect_side inset_bbox rx0 ry0 rx1 ry1 = below) /\
    (y0 inset_bbox <= y1 inset_bbox -> y1 inset_bbox <= rect_ymin - eps ->
     detect_side inset_bbox rx0 ry0 rx1 ry1 = above) /\
    (~ y0 inset_bbox >= rect_ymax + eps ->
     ~ y1 inset_bbox <= rect_ymin - eps ->
     ~ x1 inset_bbox <= rect_xmin - eps ->
     ~ x0 inset_bbox >= rect_xmax + eps ->
     detect_side inset_bbox rx0 ry0 rx1 ry1 = above).
Proof.
  intros b rx0 ry0 rx1 ry1 rect_xmin rect_xmax rect_ymin rect_ymax.
  pose proof (py_min_le_max ry0 ry1) as Hy.
  fold rect_ymin rect_ymax in Hy.
  unfold detect_side, side_of.
  fold rect_xmin rect_xmax rect_ymin rect_ymax.
  assert (He : 0 < eps) by (unfold eps; lra).
  repeat split.
  - intros H. destruct (Rge_dec _ _); [reflexivity|contradiction].
  - intros Hb H.
    destruct (Rge_dec _ _); [lra|].
    destruct (Rle_dec _ _); [reflexivity|contradiction].
  - intros H1 H2 H3 H4.
    destruct (Rge_dec _ _); [contradiction|].
    destruct (Rle_dec _ _); [contradiction|].
    destruct (Rle_dec _ _); [contradiction|].
    destruct (Rge_dec _ _); [contradiction|reflexivity].
Qed.

Lemma detect_side_labels_witness :
  detect_side (mkBbox 0.1 0.7 0.4 1.0) 0.5 0.5 0.6 0.6 = below /\
  detect_side (mkBbox 0.1 0.1 0.4 0.4) 0.5 0.5 0.6 0.6 = above /\
  detect_side (mkBbox 0.4 0.4 0.7 0.7) 0.5 0.5 0.6 0.6 = above.
Proof.
  assert (Hmin : py_min 0.5 0.6 = 0.5)
    by (unfold py_min; destruct (Rlt_dec 0.6 0.5); lra).
  assert (Hmax : py_max 0.5 0.6 = 0.6)
    by (unfold py_max; destruct (Rlt_dec 0.5 0.6); lra).
  repeat split.
  - apply (proj1 (detect_side_labels (mkBbox 0.1 0.7 0.4 1.0) 0.5 0.5 0.6 0.6)).
    rewrite Hmax. unfold eps. simpl. lra.
  - apply (proj1 (proj2 (detect_side_labels (mkBbox 0.1 0.1 0.4 0.4) 0.5 0.5 0.6 0.6))).
    + simpl. lra.
    + rewrite Hmin. unfold eps. simpl. lra.
  - apply (proj2 (proj2 (detect_side_labels (mkBbox 0.4 0.4 0.7 0.7) 0.5 0.5 0.6 0.6)));
      rewrite ?Hmin, ?Hmax; unfold eps; simpl; lra.
Defined.

(** The horizontal labels are mirrored in the same way: an inset to the
    left of the rectangle gives [right_], one to its right gives [left_]. *)
Lemma detect_side_left_right (inset_bbox : Bbox) (rx0 ry0 rx1 ry1 : R) :
  ~ y0 inset_bbox >= py_max ry0 ry1 + eps ->
  ~ y1 inset_bbox <= py_min ry0 ry1 - eps ->
  (x1 inset_bbox <= py_min rx0 rx1 - eps ->
   detect_side inset_bbox rx0 ry0 rx1 ry1 = right_) /\
  (~ x1 inset_bbox <= py_min rx0 rx1 - eps ->
   x0 inset_bbox >= py_max rx0 rx1 + eps ->
   detect_side inset_bbox rx0 ry0 rx1 ry1 = left_).
Proof.
  intros Hy0 Hy1. unfold detect_side, side_of.
  destruct (Rge_dec _ _); [contradiction|].
  destruct (Rle_dec _ _); [contradiction|].
  split.
  - intros Hx. destruct (Rle_dec _ _); [reflexivity|contradiction].
  - intros Hx1 Hx0. destruct (Rle_dec _ _); [contradiction|].
    destruct (Rge_dec _ _); [reflexivity|contradiction].
Qed.

(** The label [below] hangs the title under the rectangle's lower edge and
    [above] sets it on the upper edge. *)
Lemma title_anchor_vertical (zoom_region : Region) :
  title_anchor below zoom_region
  = ((minimum_longitude zoom_region, minimum_latitude zoom_region),
     (ha_left, va_top), (5, -5)%Z) /\
  title_anchor above zoom_region
  = ((minimum_longitude zoom_region, maximum_latitude zoom_region),
     (ha_left, va_bottom), (5, 5)%Z).
Proof. split; reflexivity. Qed.

(** The room requested for the inset has its lower edge under its upper
    edge. *)
Lemma inset_rect_upright (cx cy inset_size : R) :
  0 <= inset_size ->
  x0 (inset_rect cx cy inset_size) <= x1 (inset_rect cx cy inset_size) /\
  y0 (inset_rect cx cy inset_size) <= y1 (inset_rect cx cy inset_size).
Proof. intros H. simpl. lra. Qed.

(** ** Great-circle distance *)

(** The haversine term handed to [math.sqrt]. *)
Lemma haversine_term_nonneg (phi1 phi2 dlambda : R) :
  0 <= sin ((phi2 - phi1) / 2) ^ 2
       + cos phi1 * cos phi2 * sin (dlambda / 2) ^ 2.
Proof.
  set (S := sin ((phi2 - phi1) / 2)).
  set (T := sin (dlambda / 2)).
  assert (HT : -1 <= T <= 1) by apply SIN_bound.
  assert (Hprod : - (S * S) <= cos phi1 * cos phi2).
  { pose proof (cos_minus phi2 phi1) as Hm.
    pose proof (cos_plus phi2 phi1) as Hp.
    pose proof (COS_bound (phi2 + phi1)) as Hb.
    pose proof (cos_2a_sin ((phi2 - phi1) / 2)) as H2.
    replace (2 * ((phi2 - phi1) / 2)) with (phi2 - phi1) in H2 by field.
    fold S in H2. lra. }
  set (C := cos phi1 * cos phi2) in *.
  assert (HT2 : 0 <= T * T <= 1) by nra.
  assert (HS2 : 0 <= S * S) by nra.
  assert (H1 : 0 <= (C + S * S) * (T * T)) by (apply Rmult_le_pos; lra).
  assert (H2 : 0 <= (S * S) * (1 - T * T)) by (apply Rmult_le_pos; lra).
  replace (S ^ 2 + C * T ^ 2)
    with ((C + S * S) * (T * T) + (S * S) * (1 - T * T)) by ring.
  lra.
Qed.

Lemma haversine_term_sym (phi1 phi2 l1 l2 k : R) :
  sin ((phi2 - phi1) / 2) ^ 2
    + cos phi1 * cos phi2 * sin ((l2 - l1) * k / 2) ^ 2
  = sin ((phi1 - phi2) / 2) ^ 2
    + cos phi2 * cos phi1 * sin ((l1 - l2) * k / 2) ^ 2.
Proof.
  replace ((phi1 - phi2) / 2) with (- ((phi2 - phi1) / 2)) by field.
  replace ((l1 - l2) * k / 2) with (- ((l2 - l1) * k / 2)) by field.
  rewrite !sin_neg. ring.
Qed.

Lemma asin_nonneg (x : R) : 0 <= x <= 1 -> 0 <= asin x.
Proof.
  intros Hx.
  destruct (Rle_lt_dec 0 (asin x)) as [H|H]; [exact H|exfalso].
  pose proof (asin_bound x) as [Hlo _].
  pose proof PI_RGT_0.
  assert (Hs : sin (asin x) < 0) by (apply sin_lt_0_var; lra).
  rewrite sin_asin in Hs by lra. lra.
Qed.

(** The value [haversine_m] computes, and the range it lies in: the
    distance never exceeds half the circumference. *)
Lemma haversine_m_value (lat1 lon1 lat2 lon2 : R) :
  exists t, 0 <= t <= PI / 2 /\
            haversine_m lat1 lon1 lat2 lon2 = Ok (2 * 6371000.0 * t).
Proof.
  unfold haversine_m. cbv zeta.
  set (a := _ + _).
  assert (Ha : 0 <= a) by apply haversine_term_nonneg.
  unfold math_sqrt. destruct (Rlt_dec a 0) as [Hneg|_]; [lra|].
  simpl bind.
  pose proof (sqrt_pos a) as Hs.
  pose proof (py_min_le 1.0 (sqrt a)) as [Hm1 _].
  assert (Hm0 : 0 <= py_min 1.0 (sqrt a)).
  { unfold py_min. destruct (Rlt_dec _ _); lra. }
  unfold math_asin.
  destruct (Rlt_dec (py_min 1.0 (sqrt a)) (-1)) as [H|_]; [lra|].
  destruct (Rlt_dec 1 (py_min 1.0 (sqrt a))) as [H|_]; [lra|].
  simpl bind.
  exists (asin (py_min 1.0 (sqrt a))). split; [|reflexivity].
  split; [apply asin_nonneg; lra | apply asin_bound].
Qed.

Lemma haversine_m_total (lat1 lon1 lat2 lon2 : R) :
  exists d, haversine_m lat1 lon1 lat2 lon2 = Ok d.
Proof.
  destruct (haversine_m_value lat1 lon1 lat2 lon2) as [t [_ E]].
  eexists. exact E.
Qed.


Lemma haversine_m_same (lat lon : R) : haversine_m lat lon lat lon = Ok 0.
Proof.
  unfold haversine_m. cbv zeta.
  replace ((math_radians lat - math_radians lat) / 2) with 0 by field.
  replace (math_radians (lon - lon) / 2) with 0
    by (unfold math_radians; field).
  rewrite sin_0.
  replace (0 ^ 2 + cos (math_radians lat) * cos (math_radians lat) * 0 ^ 2)
    with 0 by ring.
  unfold math_sqrt. destruct (Rlt_dec 0 0) as [H|_]; [lra|].
  simpl bind. rewrite sqrt_0.
  assert (E : py_min 1.0 0 = 0) by (unfold py_min; destruct (Rlt_dec _ _); lra).
  rewrite E. unfold math_asin.
  destruct (Rlt_dec 0 (-1)) as [H|_]; [lra|].
  destruct (Rlt_dec 1 0) as [H|_]; [lra|].
  simpl bind. rewrite asin_0. f_equal. ring.
Qed.

Lemma haversine_m_sym (lat1 lon1 lat2 lon2 : R) :
  haversine_m lat1 lon1 lat2 lon2 = haversine_m lat2 lon2 lat1 lon1.
Proof.
  unfold haversine_m, math_radians. cbv zeta.
  now rewrite (haversine_term_sym (lat1 * (PI / 180)) (lat2 * (PI / 180))
                                  lon1 lon2 (PI / 180)).
Qed.

(** *** On binary64 floats *)

Section Binary64Facts.

Import Floats.

Lemma SFltb_asym (x y : spec_float) : SFltb x y = true -> SFltb y x = false.
Proof.
  unfold SFltb, SFcompare.
  destruct x as [sx|sx| |sx mx ex], y as [sy|sy| |sy my ey];
    try destruct sx; try destruct sy; try discriminate; try reflexivity.
  - rewrite (Z.compare_antisym ex ey).
    change (Pos.compare_cont Eq my mx) with (Pos.compare my mx).
    change (Pos.compare_cont Eq mx my) with (Pos.compare mx my).
    rewrite (Pos.compare_antisym mx my).
    destruct (ex ?= ey)%Z; simpl; try discriminate; try reflexivity.
    destruct (mx ?= my)%positive; simpl; try discriminate; reflexivity.
  - rewrite (Z.compare_antisym ex ey).
    change (Pos.compare_cont Eq my mx) with (Pos.compare my mx).
    change (Pos.compare_cont Eq mx my) with (Pos.compare mx my).
    rewrite (Pos.compare_antisym mx my).
    destruct (ex ?= ey)%Z; simpl; try discriminate; try reflexivity.
    destruct (mx ?= my)%positive; simpl; try discriminate; reflexivity.
Qed.

Lemma ltb_asym (x y : float) : (x <? y)%float = true -> (y <? x)%float = false.
Proof. rewrite !ltb_spec. apply SFltb_asym. Qed.

(** A rounded value of sign [+] is not below -1. *)
Lemma round_positive_not_below (mx ex : Z) (lx : location) :
  SFltb (binary_round_aux prec emax false mx ex lx) (Prim2SF (-1)%float) = false.
Proof.
  unfold binary_round_aux.
  destruct (shr_fexp prec emax mx ex lx) as [mrs' e'].
  destruct (shr_fexp prec emax _ e' loc_Exact) as [mrs'' e''].
  destruct (shr_m mrs'') as [|m|m]; [reflexivity| |reflexivity].
  destruct (Z.leb e'' (emax - prec)); reflexivity.
Qed.

(** The square root is a NaN, a zero or a positive value: never below -1. *)
Lemma sqrt_not_below (x : float) : (PrimFloat.sqrt x <? -1)%float = false.
Proof.
  rewrite ltb_spec, sqrt_spec. unfold SF64sqrt, SFsqrt.
  destruct (Prim2SF x) as [s|s| |s m e]; try destruct s; try reflexivity.
  destruct (SFsqrt_core_binary prec emax (Z.pos m) e) as [[mz ez] lz].
  apply round_positive_not_below.
Qed.

(** The value handed to [math.asin] lies in its domain. *)
Lemma clamp_in_domain (s : float) :
  (s <? -1)%float = false ->
  (Binary64.py_min 1 s <? -1)%float = false /\
  (1 <? Binary64.py_min 1 s)%float = false.
Proof.
  intros Hs. unfold Binary64.py_min.
  destruct (s <? 1)%float eqn:E.
  - split; [exact Hs | now apply ltb_asym].
  - split; reflexivity.
Qed.

Lemma haversine_m_cases (L : Binary64.libm) (lat1 lon1 lat2 lon2 a : float) :
  Binary64.asin_defined L ->
  Binary64.haversine_term L lat1 lon1 lat2 lon2 = Ok a ->
  ((a <? 0)%float = true ->
   Binary64.haversine_m L lat1 lon1 lat2 lon2
   = Raise (ValueError "math domain error")) /\
  ((a <? 0)%float = false ->
   (Binary64.py_min 1 (PrimFloat.sqrt a) <? -1)%float = false /\
   (1 <? Binary64.py_min 1 (PrimFloat.sqrt a))%float = false /\
   exists t,
     Binary64.math_asin L (Binary64.py_min 1 (PrimFloat.sqrt a)) = Ok t /\
     Binary64.haversine_m L lat1 lon1 lat2 lon2
     = Ok (2 * 6371000.0 * t)%float).
Proof.
  intros Hasin Ha. unfold Binary64.haversine_m. cbv zeta.
  rewrite Ha. simpl bind. unfold Binary64.math_sqrt.
  split; intros Hneg; rewrite Hneg; [reflexivity|]. simpl bind.
  destruct (clamp_in_domain (PrimFloat.sqrt a) (sqrt_not_below a)) as [Hlo Hhi].
  split; [exact Hlo|]. split; [exact Hhi|].
  destruct (Hasin _ Hlo Hhi) as [t Ht].
  exists t. split; [exact Ht|]. now rewrite Ht.
Qed.

Lemma sample_asin_defined : Binary64.asin_defined Binary64.sample_libm.
Proof.
  intros x Hlo Hhi. simpl.
  destruct (x =? 1)%float; [now eexists|].
  rewrite Hlo, Hhi. now eexists.
Qed.

(** C6, as stated, at [haversine_m(91, 0, 89, 180)] on binary64 floats:
    the rounded haversine term is [-2^-64], and [math.sqrt] raises a domain
    error, so the function is not total. *)
Lemma haversine_m_raises_beyond_pole :
  Binary64.haversine_term Binary64.sample_libm 91 0 89 180
  = Ok (-0x1p-64)%float /\
  ~ (exists d, Binary64.haversine_m Binary64.sample_libm 91 0 89 180 = Ok d).
Proof.
  split; [reflexivity|].
  intros [d Hd].
  assert (E : Binary64.haversine_m Binary64.sample_libm 91 0 89 180
              = Raise (ValueError "math domain error")) by reflexivity.
  rewrite E in Hd. discriminate Hd.
Qed.

(** C6, amended: [haversine_m(p, p)] is 0 for every point and the distance
    is symmetric (in exact arithmetic).  The value passed to the inverse
    sine is clamped to at most 1 and is never below -1, so [math.asin]
    never raises; [math.sqrt] raises a domain error exactly when the
    haversine term, as computed, is negative.  Exact arithmetic rules that
    out, so over the real numbers the function is total; binary64 rounding
    does not (see [haversine_m(91, 0, 89, 180)]), so on floats it returns
    exactly when the computed term is not negative. *)
Theorem haversine_m_zero_sym_domain :
  (forall lat lon : R, haversine_m lat lon lat lon = Ok 0) /\
  (forall lat1 lon1 lat2 lon2 : R,
      haversine_m lat1 lon1 lat2 lon2 = haversine_m lat2 lon2 lat1 lon1) /\
  (forall lat1 lon1 lat2 lon2 : R,
      exists d, haversine_m lat1 lon1 lat2 lon2 = Ok d) /\
  (forall (L : Binary64.libm) (lat1 lon1 lat2 lon2 a : float),
      Binary64.asin_defined L ->
      Binary64.haversine_term L lat1 lon1 lat2 lon2 = Ok a ->
      ((a <? 0)%float = true ->
       Binary64.haversine_m L lat1 lon1 lat2 lon2
       = Raise (ValueError "math domain error")) /\
      ((a <? 0)%float = false ->
       (Binary64.py_min 1 (PrimFloat.sqrt a) <? -1)%float = false /\
       (1 <? Binary64.py_min 1 (PrimFloat.sqrt a))%float = false /\
       exists t,
         Binary64.math_asin L (Binary64.py_min 1 (PrimFloat.sqrt a)) = Ok t /\
         Binary64.haversine_m L lat1 lon1 lat2 lon2
         = Ok (2 * 6371000.0 * t)%float)).
Proof.
  split; [exact haversine_m_same|].
  split; [exact haversine_m_sym|].
  split; [exact haversine_m_total|].
  exact haversine_m_cases.
Qed.

Lemma haversine_m_zero_sym_domain_witness :
  Binary64.haversine_term Binary64.sample_libm 2.5 0 (-2.5) 180
  = Ok 0x1.0000000000001p+0%float /\
  Binary64.haversine_m Binary64.sample_libm 2.5 0 (-2.5) 180
  = Ok 0x1.3167eecbc8011p+24%float.
Proof.
  assert (Ha : Binary64.haversine_term Binary64.sample_libm 2.5 0 (-2.5) 180
               = Ok 0x1.0000000000001p+0%float) by reflexivity.
  split; [exact Ha|].
  destruct (proj2 (proj2 (proj2 (proj2 haversine_m_zero_sym_domain))
                     Binary64.sample_libm 2.5%float 0%float (-2.5)%float
                     180%float 0x1.0000000000001p+0%float
                     sample_asin_defined Ha) eq_refl)
    as [_ [_ [t [Ht Hm]]]].
  rewrite Hm. vm_compute in Ht. injection Ht as <-. reflexivity.
Defined.

End Binary64Facts.

(** ** Clustering *)

Lemma singleton_map (points : list point) :
  map (fun '(lat, lon) => (lat, lon, 1%Z)) points = map singleton points.
Proof.
  apply map_ext. now intros [lat lon].
Qed.

(** C3: with [min_distance_m <= 0] clustering is a no-op: the result is
    the input, point by point and in order, each point a cluster of count 1
    whose centroid is the point; so there are exactly [len(points)]
    clusters. *)
Theorem cluster_points_noop :
  forall (points : list point) (min_distance_m : R),
    min_distance_m <= 0 ->
    cluster_points points min_distance_m = Ok (map singleton points) /\
    List.length (map singleton points) = List.length points /\
    (forall i p, nth_error points i = Some p ->
                 nth_error (map singleton points) i = Some (fst p, snd p, 1%Z)).
Proof.
  intros points D HD. repeat split.
  - unfold cluster_points. destruct points as [|p ps]; [reflexivity|].
    destruct (Rle_dec D 0) as [_|N]; [|contradiction].
    now rewrite singleton_map.
  - apply length_map.
  - intros i p Hi. rewrite nth_error_map, Hi. reflexivity.
Qed.

Lemma cluster_points_noop_witness :
  0 <= 0 /\
  cluster_points [(52.0, -8.0); (52.0, -8.0); (10.0, 10.0)] 0
  = Ok [(52.0, -8.0, 1%Z); (52.0, -8.0, 1%Z); (10.0, 10.0, 1%Z)].
Proof.
  assert (H : 0 <= 0) by lra.
  split; [exact H|].
  exact (proj1 (cluster_points_noop
                  [(52.0, -8.0); (52.0, -8.0); (10.0, 10.0)] 0 H)).
Defined.

(** Every cluster holds at least one member. *)
Definition populated (clusters : list cluster) : Prop :=
  Forall (fun c => (1 <= count_of c)%Z) clusters.

Lemma total_count_app (l1 l2 : list cluster) :
  total_count (l1 ++ l2) = (total_count l1 + total_count l2)%Z.
Proof.
  induction l1 as [|c l1 IH]; simpl; [reflexivity|].
  unfold total_count in *. simpl. rewrite IH. lia.
Qed.

Lemma py_div_count (x : R) (count : Z) :
  (1 <= count)%Z -> py_div x (IZR (count + 1)) = Ok (x / IZR (count + 1)).
Proof.
  intros Hc. unfold py_div.
  destruct (Req_dec_T (IZR (count + 1)) 0) as [E|_]; [|reflexivity].
  apply eq_IZR_R0 in E. lia.
Qed.

(** One pass of the inner loop: it never raises, and a point that joins a
    cluster raises that cluster's count by one and leaves the number of
    clusters as it was. *)
Lemma assign_point_inv (lat lon min_distance_m : R) (clusters : list cluster) :
  populated clusters ->
  exists r, assign_point lat lon min_distance_m clusters = Ok r /\
            match r with
            | None => True
            | Some clusters' =>
                populated clusters' /\
                List.length clusters' = List.length clusters /\
                total_count clusters' = (total_count clusters + 1)%Z
            end.
Proof.
  induction clusters as [|[[clat clon] count] rest IH]; intros Hpop.
  - exists None. now split.
  - inversion Hpop as [|c l Hc Hrest]; subst. unfold count_of in Hc; simpl in Hc.
    simpl assign_point.
    destruct (haversine_m_total lat lon clat clon) as [d Hd].
    rewrite Hd. simpl bind.
    destruct (Rle_dec d min_distance_m) as [Hin|Hout].
    + cbv zeta. rewrite !py_div_count by assumption. simpl bind.
      eexists. split; [reflexivity|]. simpl.
      repeat split.
      * constructor; [unfold count_of; simpl; lia | assumption].
      * unfold total_count, count_of. simpl. lia.
    + destruct (IH Hrest) as [r [Hr Hinv]].
      rewrite Hr. simpl bind.
      eexists. split; [reflexivity|].
      destruct r as [rest'|]; simpl; [|exact I].
      destruct Hinv as [Hp [Hl Ht]].
      repeat split.
      * constructor; assumption.
      * now rewrite Hl.
      * unfold total_count in *. simpl. rewrite Ht. lia.
Qed.

Lemma cluster_loop_inv (min_distance_m : R) (points : list point) :
  forall clusters : list cluster,
    populated clusters ->
    exists out, cluster_loop min_distance_m points clusters = Ok out /\
                populated out /\
                total_count out
                = (total_count clusters + Z.of_nat (List.length points))%Z /\
                (List.length out <= List.length clusters + List.length points)%nat.
Proof.
  induction points as [|[lat lon] rest IH]; intros clusters Hpop.
  - exists clusters. simpl. repeat split; [assumption | lia | lia].
  - simpl cluster_loop.
    destruct (assign_point_inv lat lon min_distance_m clusters Hpop)
      as [r [Hr Hinv]].
    rewrite Hr. simpl bind.
    destruct r as [clusters'|].
    + destruct Hinv as [Hp [Hl Ht]].
      destruct (IH clusters' Hp) as [out [Ho [Hpo [Hto Hlo]]]].
      exists out. repeat split; try assumption.
      * rewrite Hto, Ht. simpl List.length. lia.
      * simpl List.length. lia.
    + assert (Hp : populated (clusters ++ [(lat, lon, 1%Z)])).
      { apply Forall_app. split; [assumption|].
        constructor; [unfold count_of; simpl; lia | constructor]. }
      destruct (IH _ Hp) as [out [Ho [Hpo [Hto Hlo]]]].
      exists out. repeat split; try assumption.
      * rewrite Hto, total_count_app. unfold total_count at 2, count_of.
        simpl. lia.
      * rewrite length_app in Hlo. simpl in *. lia.
Qed.

Lemma singletons_inv (points : list point) :
  populated (map singleton points) /\
  total_count (map singleton points) = Z.of_nat (List.length points).
Proof.
  induction points as [|p ps [IHp IHt]]; [split; [constructor|reflexivity]|].
  split.
  - constructor; [unfold count_of; simpl; lia | assumption].
  - change (total_count (map singleton (p :: ps)))
      with (count_of (singleton p) + total_count (map singleton ps))%Z.
    rewrite IHt.
    change (count_of (singleton p)) with 1%Z.
    change (List.length (p :: ps)) with (S (List.length ps)). lia.
Qed.


(** *** The running mean *)






Lemma cluster_loop_cons (min_distance_m : R) (p : point) (rest : list point)
                        (clusters : list cluster) :
  cluster_loop min_distance_m (p :: rest) clusters
  = (r <- assign_point (fst p) (snd p) min_distance_m clusters ;;
     match r with
     | Some clusters' => cluster_loop min_distance_m rest clusters'
     | None => cluster_loop min_distance_m rest (clusters ++ [(fst p, snd p, 1%Z)])
     end).
Proof. now destruct p. Qed.






(** ** Reading the points file *)

Section PointsFile.

Variable float_of : string -> option R.
Variable repr : string -> string.

Local Open Scope string_scope.

(** One turn of the loop, by cases on the line. *)
Lemma read_lines_cons (raw : string) (rest : list string) (points : list point) :
  read_lines float_of repr (raw :: rest) points =
  if kept raw then
    match fields raw with
    | [a; b] =>
        lat <- py_float float_of repr a ;;
        lon <- py_float float_of repr b ;;
        read_lines float_of repr rest (points ++ [(lat, lon)])%list
    | _ => Raise (invalid_line repr raw)
    end
  else read_lines float_of repr rest points.
Proof.
  simpl. unfold kept, fields, invalid_line.
  destruct (is_empty (strip raw)); [reflexivity|].
  destruct (startswith "#" (strip raw)); [reflexivity|]. simpl.
  destruct (map strip (split "," (strip raw))) as [|a [|b [|c l]]];
    reflexivity.
Qed.

(** What a well-formed line is, spelled out. *)
Lemma pair_of_Some (raw : string) (p : point) :
  pair_of float_of raw = Some p ->
  exists a b, fields raw = [a; b] /\
              float_of a = Some (fst p) /\ float_of b = Some (snd p).
Proof.
  unfold pair_of.
  destruct (fields raw) as [|a [|b [|c l]]]; try discriminate.
  destruct (float_of a) as [lat|] eqn:Ea; [|discriminate].
  destruct (float_of b) as [lon|] eqn:Eb; [|discriminate].
  intros H; injection H as <-. exists a, b. now repeat split.
Qed.

(** What an ill-formed line raises when the loop reaches it. *)
Lemma pair_of_None (raw : string) (rest : list string) (points : list point) :
  kept raw = true ->
  pair_of float_of raw = None ->
  (List.length (fields raw) <> 2%nat /\
   read_lines float_of repr (raw :: rest) points = Raise (invalid_line repr raw)) \/
  (exists field, In field (fields raw) /\ float_of field = None /\
     read_lines float_of repr (raw :: rest) points = Raise (not_a_float repr field)).
Proof.
  intros Hk Hp. rewrite read_lines_cons, Hk. unfold pair_of in Hp.
  destruct (fields raw) as [|a [|b [|c l]]];
    try (left; split; [simpl; lia | reflexivity]).
  right. unfold py_float at 1.
  destruct (float_of a) as [lat|] eqn:Ea.
  - destruct (float_of b) as [lon|] eqn:Eb; [discriminate|].
    exists b. split; [simpl; tauto|]. split; [exact Eb|].
    simpl bind. unfold py_float. now rewrite Eb.
  - exists a. split; [simpl; tauto|]. split; [exact Ea|]. reflexivity.
Qed.

Lemma read_lines_skips (lines : list string) :
  forall points,
    read_lines float_of repr lines points
    = read_lines float_of repr (filter kept lines) points.
Proof.
  induction lines as [|raw rest IH]; intros points; [reflexivity|].
  rewrite read_lines_cons. simpl filter.
  destruct (kept raw) eqn:Hk; [|apply IH].
  rewrite read_lines_cons, Hk.
  destruct (fields raw) as [|a [|b [|c l]]]; try reflexivity.
  destruct (py_float float_of repr a) as [lat|e]; [|reflexivity].
  destruct (py_float float_of repr b) as [lon|e]; [|reflexivity].
  simpl bind. apply IH.
Qed.

Lemma read_lines_all_well_formed (lines : list string) :
  forall points out,
    map (pair_of float_of) (filter kept lines) = map Some out ->
    read_lines float_of repr lines points = Ok (points ++ out)%list.
Proof.
  induction lines as [|raw rest IH]; intros points out Hall.
  - destruct out; [|discriminate]. simpl. now rewrite app_nil_r.
  - rewrite read_lines_cons. simpl filter in Hall.
    destruct (kept raw) eqn:Hk; [|now apply IH].
    destruct out as [|p out]; [discriminate|].
    simpl in Hall. injection Hall as Hp Hrest.
    destruct (pair_of_Some raw p Hp) as [a [b [Hf [Ha Hb]]]].
    rewrite Hf. unfold py_float. rewrite Ha, Hb. simpl bind.
    rewrite (IH _ out Hrest), <- app_assoc.
    now destruct p.
Qed.

Lemma read_lines_raises (lines : list string) :
  forall points e,
    read_lines float_of repr lines points = Raise e ->
    exists raw,
      In raw (filter kept lines) /\ pair_of float_of raw = None /\
      ((List.length (fields raw) <> 2%nat /\ e = invalid_line repr raw) \/
       (exists field, In field (fields raw) /\ float_of field = None /\
                      e = not_a_float repr field)).
Proof.
  induction lines as [|raw rest IH]; intros points e Hr; [discriminate|].
  simpl filter.
  destruct (kept raw) eqn:Hk;
    [|rewrite read_lines_cons, Hk in Hr; exact (IH _ _ Hr)].
  destruct (pair_of float_of raw) as [p|] eqn:Hp.
  - destruct (pair_of_Some raw p Hp) as [a [b [Hf [Ha Hb]]]].
    rewrite read_lines_cons, Hk, Hf in Hr.
    unfold py_float in Hr. rewrite Ha, Hb in Hr. simpl bind in Hr.
    destruct (IH _ _ Hr) as [raw' [Hin Hrest]].
    exists raw'. split; [now right | exact Hrest].
  - exists raw. split; [now left|]. split; [exact Hp|].
    destruct (pair_of_None raw rest points Hk Hp)
      as [[Hlen Hraise] | [field [Hin [Hnone Hraise]]]];
      rewrite Hraise in Hr; injection Hr as <-.
    + left. now split.
    + right. exists field. now repeat split.
Qed.

Lemma read_lines_ill_formed (lines : list string) :
  forall points,
    Exists (fun raw => pair_of float_of raw = None) (filter kept lines) ->
    exists msg, read_lines float_of repr lines points = Raise (ValueError msg).
Proof.
  induction lines as [|raw rest IH]; intros points Hex;
    [inversion Hex|].
  simpl filter in Hex.
  destruct (kept raw) eqn:Hk;
    [|rewrite read_lines_cons, Hk; now apply IH].
  destruct (pair_of float_of raw) as [p|] eqn:Hp.
  - inversion Hex as [x l Hbad | x l Hlater]; subst; [congruence|].
    destruct (pair_of_Some raw p Hp) as [a [b [Hf [Ha Hb]]]].
    rewrite read_lines_cons, Hk, Hf.
    unfold py_float. rewrite Ha, Hb. simpl bind.
    now apply IH.
  - destruct (pair_of_None raw rest points Hk Hp)
      as [[_ Hraise] | [field [_ [_ Hraise]]]];
      rewrite Hraise; eexists; reflexivity.
Qed.

(** The lines before the first ill-formed one only add their points. *)
Lemma read_lines_good_prefix (good : list string) :
  forall (l : list string) (points : list point),
    Forall (fun r => kept r = true) good ->
    Forall (fun r => pair_of float_of r <> None) good ->
    exists points',
      read_lines float_of repr (good ++ l)%list points
      = read_lines float_of repr l points'.
Proof.
  induction good as [|raw good IH]; intros l points Hk Hw.
  - exists points. reflexivity.
  - inversion Hk as [|? ? Hk0 Hk']; subst.
    inversion Hw as [|? ? Hw0 Hw']; subst.
    destruct (pair_of float_of raw) as [p|] eqn:Hp; [|contradiction].
    destruct (pair_of_Some raw p Hp) as [a [b [Hf [Ha Hb]]]].
    simpl app. rewrite read_lines_cons, Hk0, Hf.
    unfold py_float. rewrite Ha, Hb. simpl bind.
    apply IH; assumption.
Qed.

(** The error of an ill-formed line, by the number of its fields and by
    which field is no number. *)
Lemma read_lines_bad_head (raw : string) (rest : list string) (points : list point) :
  kept raw = true ->
  pair_of float_of raw = None ->
  (List.length (fields raw) <> 2%nat ->
   read_lines float_of repr (raw :: rest) points = Raise (invalid_line repr raw)) /\
  (forall a b, fields raw = [a; b] -> float_of a = None ->
   read_lines float_of repr (raw :: rest) points = Raise (not_a_float repr a)) /\
  (forall a b x, fields raw = [a; b] -> float_of a = Some x ->
   read_lines float_of repr (raw :: rest) points = Raise (not_a_float repr b)).
Proof.
  intros Hk Hp. rewrite read_lines_cons, Hk. unfold pair_of in Hp.
  split; [|split].
  - intros Hlen.
    destruct (fields raw) as [|a [|b [|c l]]]; try reflexivity.
    exfalso. apply Hlen. reflexivity.
  - intros a b Hf Ha. rewrite Hf. unfold py_float. now rewrite Ha.
  - intros a b x Hf Ha. rewrite Hf in *. unfold py_float. rewrite Ha in *.
    simpl bind.
    destruct (float_of b) as [y|]; [discriminate Hp | reflexivity].
Qed.

Lemma read_lines_first_bad (good : list string) (raw : string)
                           (rest : list string) :
  Forall (fun r => kept r = true) (good ++ raw :: rest)%list ->
  Forall (fun r => pair_of float_of r <> None) good ->
  pair_of float_of raw = None ->
  (List.length (fields raw) <> 2%nat ->
   read_lines float_of repr (good ++ raw :: rest)%list []
   = Raise (invalid_line repr raw)) /\
  (forall a b, fields raw = [a; b] -> float_of a = None ->
   read_lines float_of repr (good ++ raw :: rest)%list []
   = Raise (not_a_float repr a)) /\
  (forall a b x, fields raw = [a; b] -> float_of a = Some x ->
   read_lines float_of repr (good ++ raw :: rest)%list []
   = Raise (not_a_float repr b)).
Proof.
  intros Hk Hw Hp.
  apply Forall_app in Hk. destruct Hk as [Hkg Hkr].
  inversion Hkr as [|? ? Hk0 _]; subst.
  destruct (read_lines_good_prefix good (raw :: rest) [] Hkg Hw) as [pts ->].
  exact (read_lines_bad_head raw rest pts Hk0 Hp).
Qed.

Lemma filter_kept_all (lines : list string) :
  Forall (fun r => kept r = true) (filter kept lines).
Proof.
  apply Forall_forall. intros r Hr. now apply filter_In in Hr.
Qed.

(** C8, amended: a missing file raises a file-not-found error naming the
    path, and a file that cannot be read as text raises the error of the
    reading (for bytes that are not UTF-8 a value error that cites no
    line).  Otherwise blank lines and lines whose stripped text starts
    with [#] are skipped; if every remaining line has exactly two
    comma-separated numeric fields the result is their (lat, lon) pairs
    in order; a value error is raised if and only if some remaining line
    has not, and it is the error of the first such line: when that line
    has not exactly two fields, the error that cites the line; when it has
    two, the error of [float()], which cites the first field that is not
    numeric. *)
Theorem read_points_csv_spec :
  forall (path_str : string -> string)
         (fs : string -> option (result string)) (path : string),
    (fs path = None ->
     _read_points_csv float_of repr path_str fs path
     = Raise (FileNotFoundError ("Points file not found: " ++ path_str path))) /\
    (forall e, fs path = Some (Raise e) ->
     _read_points_csv float_of repr path_str fs path = Raise e) /\
    (forall text, fs path = Some (Ok text) ->
       let remaining := filter kept (splitlines text) in
       _read_points_csv float_of repr path_str fs path
       = read_lines float_of repr remaining [] /\
       (forall out, map (pair_of float_of) remaining = map Some out ->
                    _read_points_csv float_of repr path_str fs path = Ok out) /\
       ((exists msg, _read_points_csv float_of repr path_str fs path
                     = Raise (ValueError msg))
        <-> Exists (fun raw => pair_of float_of raw = None) remaining) /\
       (forall good raw rest,
           remaining = (good ++ raw :: rest)%list ->
           Forall (fun r => pair_of float_of r <> None) good ->
           pair_of float_of raw = None ->
           (List.length (fields raw) <> 2%nat ->
            _read_points_csv float_of repr path_str fs path
            = Raise (ValueError ("Invalid points line (expected 'lat,lon'): "
                                 ++ repr raw))) /\
           (forall a b, fields raw = [a; b] -> float_of a = None ->
            _read_points_csv float_of repr path_str fs path
            = Raise (ValueError ("could not convert string to float: "
                                 ++ repr a))) /\
           (forall a b x, fields raw = [a; b] -> float_of a = Some x ->
            _read_points_csv float_of repr path_str fs path
            = Raise (ValueError ("could not convert string to float: "
                                 ++ repr b))))).
Proof.
  intros path_str fs path. unfold _read_points_csv.
  split; [|split].
  - intros Hnone. now rewrite Hnone.
  - intros e Hraise. now rewrite Hraise.
  - intros text Hsome. rewrite Hsome. simpl bind.
    split; [apply read_lines_skips|].
    split; [intros out Hall; apply (read_lines_all_well_formed _ [] out Hall)|].
    split.
    + split.
      * intros [msg Hr].
        destruct (read_lines_raises _ _ _ Hr) as [raw [Hin [Hp _]]].
        apply Exists_exists. now exists raw.
      * apply read_lines_ill_formed.
    + intros good raw rest Hsplit Hgood Hbad.
      rewrite read_lines_skips, Hsplit.
      apply read_lines_first_bad; [|exact Hgood|exact Hbad].
      rewrite <- Hsplit. apply filter_kept_all.
Qed.

End PointsFile.

Lemma list_ascii_of_string_app (s t : string) :
  list_ascii_of_string (s ++ t)
  = list_ascii_of_string s ++ list_ascii_of_string t.
Proof.
  induction s as [|c s IH]; simpl; [reflexivity|now rewrite IH].
Qed.

Lemma prefix_of_app (p l : list ascii) : prefix_of p (p ++ l) = true.
Proof.
  induction p as [|a p IH]; simpl; [reflexivity|].
  now rewrite Ascii.eqb_refl, IH.
Qed.

Lemma endswith_app (pre suffix : string) :
  endswith suffix (pre ++ suffix) = true.
Proof.
  unfold endswith.
  rewrite list_ascii_of_string_app, rev_app_distr.
  apply prefix_of_app.
Qed.

Lemma cites_endswith (repr : string -> string) (msg raw : string) :
  cites repr msg raw -> endswith (repr raw) msg = true.
Proof.
  intros [pre ->]. apply endswith_app.
Qed.

(** C8, as stated, on the file whose only line is [1,x]: that line has two
    fields, of which the second is not numeric; the value error raised is
    the one of [float()], with the message
    [could not convert string to float: 'x'], which cites the field and not
    the line. *)
Lemma bad_field_error_does_not_cite_line :
  ~ (forall (float_of : string -> option R) (repr : string -> string)
            (path_str : string -> string)
            (fs : string -> option (result string)) (path text : string),
        fs path = Some (Ok text) ->
        let remaining := filter kept (splitlines text) in
        (exists msg raw,
            In raw remaining /\ pair_of float_of raw = None /\
            _read_points_csv float_of repr path_str fs path
            = Raise (ValueError msg) /\
            cites repr msg raw)
        <-> Exists (fun raw => pair_of float_of raw = None) remaining).
Proof.
  intros H.
  specialize (H digit_float plain_repr plain_path one_bad_field
                "points.csv"%string "1,x"%string eq_refl).
  cbv zeta in H. destruct H as [_ H].
  assert (Hex : Exists (fun raw => pair_of digit_float raw = None)
                       (filter kept (splitlines "1,x"))).
  { apply Exists_cons_hd. reflexivity. }
  destruct (H Hex) as [msg [raw [Hin [_ [Hr Hc]]]]].
  assert (Hraw : raw = "1,x"%string).
  { destruct Hin as [<-|[]]. reflexivity. }
  subst raw.
  assert (Hmsg : _read_points_csv digit_float plain_repr plain_path
                                  one_bad_field "points.csv"
                 = Raise (ValueError "could not convert string to float: 'x'"))
    by reflexivity.
  rewrite Hmsg in Hr. injection Hr as <-.
  apply cites_endswith in Hc.
  vm_compute in Hc. discriminate Hc.
Qed.

Lemma read_points_csv_spec_witness :
  _read_points_csv digit_float plain_repr plain_path one_good_file "points.csv"
  = Ok [(1, 2); (3, 4)] /\
  _read_points_csv digit_float plain_repr plain_path one_good_file "missing.csv"
  = Raise (FileNotFoundError "Points file not found: missing.csv") /\
  _read_points_csv digit_float plain_repr plain_path three_fields "points.csv"
  = Raise (ValueError "Invalid points line (expected 'lat,lon'): '1,x,3'") /\
  _read_points_csv digit_float plain_repr plain_path one_bad_field "points.csv"
  = Raise (ValueError "could not convert string to float: 'x'").
Proof.
  split; [|split; [|split]].
  - pose proof (proj2 (proj2 (read_points_csv_spec
                  digit_float plain_repr plain_path one_good_file "points.csv"))
                _ eq_refl) as H.
    cbv zeta in H.
    refine (proj1 (proj2 H) [(1, 2); (3, 4)] _). reflexivity.
  - exact (proj1 (read_points_csv_spec digit_float plain_repr plain_path
                    one_good_file "missing.csv") eq_refl).
  - pose proof (proj2 (proj2 (read_points_csv_spec
                  digit_float plain_repr plain_path three_fields "points.csv"))
                "1,x,3"%string eq_refl) as H.
    cbv zeta in H.
    refine (proj1 (proj2 (proj2 (proj2 H)) [] "1,x,3"%string [] eq_refl
                         (Forall_nil _) eq_refl) _).
    vm_compute. discriminate.
  - pose proof (proj2 (proj2 (read_points_csv_spec
                  digit_float plain_repr plain_path one_bad_field "points.csv"))
                "1,x"%string eq_refl) as H.
    cbv zeta in H.
    exact (proj2 (proj2 (proj2 (proj2 (proj2 H)) [] "1,x"%string [] eq_refl
                               (Forall_nil _) eq_refl))
                 "1"%string "x"%string 1 eq_refl eq_refl).
Defined.

(** * Further properties *)

(** ** Auto region on a non-empty point set *)

Lemma fold_py_min_le (l : list R) :
  forall acc, fold_left py_min l acc <= acc /\
              (forall y, In y l -> fold_left py_min l acc <= y).
Proof.
  induction l as [|z l IH]; intros acc; simpl.
  - split; [lra | intros y []].
  - destruct (IH (py_min acc z)) as [Hacc Hall].
    pose proof (py_min_le acc z) as [Ha Hz].
    split; [lra|].
    intros y [<-|Hy]; [lra | now apply Hall].
Qed.

Lemma fold_py_max_ge (l : list R) :
  forall acc, acc <= fold_left py_max l acc /\
              (forall y, In y l -> y <= fold_left py_max l acc).
Proof.
  induction l as [|z l IH]; intros acc; simpl.
  - split; [lra | intros y []].
  - destruct (IH (py_max acc z)) as [Hacc Hall].
    pose proof (py_max_ge acc z) as [Ha Hz].
    split; [lra|].
    intros y [<-|Hy]; [lra | now apply Hall].
Qed.

Lemma fold_py_min_In (l : list R) :
  forall acc, In (fold_left py_min l acc) (acc :: l).
Proof.
  induction l as [|z l IH]; intros acc; simpl; [now left|].
  destruct (IH (py_min acc z)) as [E|Hin]; [|right; now right].
  rewrite <- E. unfold py_min. destruct (Rlt_dec z acc); [right|]; now left.
Qed.

Lemma fold_py_max_In (l : list R) :
  forall acc, In (fold_left py_max l acc) (acc :: l).
Proof.
  induction l as [|z l IH]; intros acc; simpl; [now left|].
  destruct (IH (py_max acc z)) as [E|Hin]; [|right; now right].
  rewrite <- E. unfold py_max. destruct (Rlt_dec acc z); [right|]; now left.
Qed.

Lemma py_min_seq_le (x : R) (xs : list R) (y : R) :
  In y (x :: xs) -> py_min_seq x xs <= y.
Proof.
  unfold py_min_seq. destruct (fold_py_min_le xs x) as [Hx Hall].
  intros [<-|Hy]; [exact Hx | now apply Hall].
Qed.

Lemma py_max_seq_ge (x : R) (xs : list R) (y : R) :
  In y (x :: xs) -> y <= py_max_seq x xs.
Proof.
  unfold py_max_seq. destruct (fold_py_max_ge xs x) as [Hx Hall].
  intros [<-|Hy]; [exact Hx | now apply Hall].
Qed.

Lemma Region_eq (r : Region) (a b c d : R) :
  minimum_longitude r = a -> maximum_longitude r = b ->
  minimum_latitude r = c -> maximum_latitude r = d ->
  r = mkRegion a b c d.
Proof. destruct r; simpl; intros; now subst. Qed.

(** The padding [max(0.5, max(0.01, span) * 0.35)]: the floor of 0.01 on the
    span never shows, since 0.35 of it stays under the half degree. *)
Lemma pad_without_floor (span : R) :
  py_max 0.5 (py_max 0.01 span * 0.35) = Rmax 0.5 (span * 0.35).
Proof.
  unfold py_max, Rmax.
  destruct (Rlt_dec 0.01 span); destruct (Rlt_dec 0.5 _);
    destruct (Rle_dec 0.5 _); lra.
Qed.

Lemma extremes_bound (p : point) (ps : list point) (q : point) :
  In q (p :: ps) ->
  lat_lo p ps <= fst q <= lat_hi p ps /\ lon_lo p ps <= snd q <= lon_hi p ps.
Proof.
  intros Hq.
  assert (Hf : In (fst q) (fst p :: map fst ps))
    by (change (In (fst q) (map fst (p :: ps))); now apply in_map).
  assert (Hs : In (snd q) (snd p :: map snd ps))
    by (change (In (snd q) (map snd (p :: ps))); now apply in_map).
  unfold lat_lo, lat_hi, lon_lo, lon_hi.
  repeat split;
    first [now apply py_min_seq_le | now apply py_max_seq_ge].
Qed.

Lemma lon_extremes_attained (p : point) (ps : list point) :
  exists a b, In a (p :: ps) /\ In b (p :: ps) /\
              lon_lo p ps = snd a /\ lon_hi p ps = snd b.
Proof.
  unfold lon_lo, lon_hi, py_min_seq, py_max_seq.
  pose proof (fold_py_min_In (map snd ps) (snd p)) as Hlo.
  pose proof (fold_py_max_In (map snd ps) (snd p)) as Hhi.
  change (snd p :: map snd ps) with (map snd (p :: ps)) in Hlo, Hhi.
  apply in_map_iff in Hlo. apply in_map_iff in Hhi.
  destruct Hlo as [a [Ea Ha]]. destruct Hhi as [b [Eb Hb]].
  exists a, b. repeat split; auto.
Qed.

(** The region of the local branch, written out. *)
Lemma auto_region_local (p : point) (ps : list point) :
  ~ 180 < lon_hi p ps - lon_lo p ps ->
  _auto_region_from_points (p :: ps)
  = mkRegion (lon_lo p ps - Rmax 0.5 ((lon_hi p ps - lon_lo p ps) * 0.35))
             (lon_hi p ps + Rmax 0.5 ((lon_hi p ps - lon_lo p ps) * 0.35))
             (lat_lo p ps - Rmax 0.5 ((lat_hi p ps - lat_lo p ps) * 0.35))
             (lat_hi p ps + Rmax 0.5 ((lat_hi p ps - lat_lo p ps) * 0.35)).
Proof.
  intros Hspan. unfold _auto_region_from_points.
  fold (lat_lo p ps) (lat_hi p ps) (lon_lo p ps) (lon_hi p ps). cbv zeta.
  destruct (Rlt_dec 180 _) as [H|_]; [contradiction|].
  rewrite !pad_without_floor.
  apply normalized_of_ordered. unfold ordered; simpl.
  destruct (extremes_bound p ps p (or_introl eq_refl)) as [Hlat Hlon].
  pose proof (Rmax_l 0.5 ((lon_hi p ps - lon_lo p ps) * 0.35)).
  pose proof (Rmax_l 0.5 ((lat_hi p ps - lat_lo p ps) * 0.35)).
  lra.
Qed.

Lemma local_span (p : point) (ps : list point) :
  (forall a b, In a (p :: ps) -> In b (p :: ps) -> snd b - snd a <= 180) ->
  ~ 180 < lon_hi p ps - lon_lo p ps.
Proof.
  intros Hspan.
  destruct (lon_extremes_attained p ps) as [a [b [Ha [Hb [-> ->]]]]].
  specialize (Hspan a b Ha Hb). lra.
Qed.

(** The auto region of points whose longitudes span at most 180 degrees
    runs from the least to the greatest coordinate on each axis, widened on
    both sides by the larger of half a degree and 35 percent of the span;
    the floor of 0.01 degrees on the span has no effect on it. *)
Theorem auto_region_local_extent :
  forall (p : point) (ps : list point),
    (forall a b, In a (p :: ps) -> In b (p :: ps) -> snd b - snd a <= 180) ->
    let r := _auto_region_from_points (p :: ps) in
    minimum_longitude r
      = lon_lo p ps - Rmax 0.5 ((lon_hi p ps - lon_lo p ps) * 0.35) /\
    maximum_longitude r
      = lon_hi p ps + Rmax 0.5 ((lon_hi p ps - lon_lo p ps) * 0.35) /\
    minimum_latitude r
      = lat_lo p ps - Rmax 0.5 ((lat_hi p ps - lat_lo p ps) * 0.35) /\
    maximum_latitude r
      = lat_hi p ps + Rmax 0.5 ((lat_hi p ps - lat_lo p ps) * 0.35).
Proof.
  intros p ps Hspan r.
  subst r. rewrite (auto_region_local p ps (local_span p ps Hspan)). simpl.
  repeat split.
Qed.

Lemma auto_region_local_extent_witness :
  _auto_region_from_points [(53.0, -8.0)]
  = mkRegion (-8.0 - 0.5) (-8.0 + 0.5) (53.0 - 0.5) (53.0 + 0.5).
Proof.
  assert (H : forall a b : point,
             In a [(53.0, -8.0)] -> In b [(53.0, -8.0)] -> snd b - snd a <= 180).
  { intros a b [<-|[]] [<-|[]]. simpl. lra. }
  pose proof (auto_region_local_extent (53.0, -8.0) [] H) as E.
  cbv zeta in E. destruct E as [E1 [E2 [E3 E4]]].
  assert (Ex : Rmax 0.5 ((-8.0 - -8.0) * 0.35) = 0.5) by (apply Rmax_left; lra).
  assert (Ey : Rmax 0.5 ((53.0 - 53.0) * 0.35) = 0.5) by (apply Rmax_left; lra).
  apply Region_eq.
  - etransitivity; [exact E1|]. cbn. now rewrite Ex.
  - etransitivity; [exact E2|]. cbn. now rewrite Ex.
  - etransitivity; [exact E3|]. cbn. now rewrite Ey.
  - etransitivity; [exact E4|]. cbn. now rewrite Ey.
Defined.

(** Every point of a set whose longitudes span at most 180 degrees lies in
    the auto region at least half a degree away from each of its borders,
    so the region is at least one degree wide and high. *)
Theorem auto_region_local_contains :
  forall (points : list point) (q : point),
    (forall a b, In a points -> In b points -> snd b - snd a <= 180) ->
    In q points ->
    let r := _auto_region_from_points points in
    minimum_longitude r + 0.5 <= snd q <= maximum_longitude r - 0.5 /\
    minimum_latitude r + 0.5 <= fst q <= maximum_latitude r - 0.5 /\
    1 <= maximum_longitude r - minimum_longitude r /\
    1 <= maximum_latitude r - minimum_latitude r.
Proof.
  intros points q Hspan Hq r.
  destruct points as [|p ps]; [destruct Hq|].
  subst r. rewrite (auto_region_local p ps (local_span p ps Hspan)). simpl.
  destruct (extremes_bound p ps q Hq) as [Hlat Hlon].
  pose proof (Rmax_l 0.5 ((lon_hi p ps - lon_lo p ps) * 0.35)).
  pose proof (Rmax_l 0.5 ((lat_hi p ps - lat_lo p ps) * 0.35)).
  lra.
Qed.

Lemma auto_region_local_contains_witness :
  let r := _auto_region_from_points [(52.0, -8.0); (10.0, 10.0)] in
  minimum_longitude r + 0.5 <= 10.0 <= maximum_longitude r - 0.5 /\
  minimum_latitude r + 0.5 <= 10.0 <= maximum_latitude r - 0.5 /\
  1 <= maximum_longitude r - minimum_longitude r /\
  1 <= maximum_latitude r - minimum_latitude r.
Proof.
  refine (auto_region_local_contains [(52.0, -8.0); (10.0, 10.0)] (10.0, 10.0) _ _).
  - intros a b [<-|[<-|[]]] [<-|[<-|[]]]; simpl; lra.
  - right. now left.
Defined.

(** When two points lie more than 180 degrees of longitude apart, the auto
    region is the whole band of longitudes from -180 to 180; its latitudes
    hold every point whose latitude is between -80 and 80, and stay within
    [-80, 80] when all latitudes are within [-85, 85]. *)
Theorem auto_region_global_band :
  forall (points : list point) (a b : point),
    In a points -> In b points -> 180 < snd b - snd a ->
    let r := _auto_region_from_points points in
    minimum_longitude r = -180 /\ maximum_longitude r = 180 /\
    (forall q, In q points -> -80 <= fst q <= 80 ->
               minimum_latitude r <= fst q <= maximum_latitude r) /\
    ((forall q, In q points -> -85 <= fst q <= 85) ->
     -80 <= minimum_latitude r /\ maximum_latitude r <= 80).
Proof.
  intros points a b Ha Hb Hfar r.
  destruct points as [|p ps]; [destruct Ha|].
  assert (Hglob : 180 < lon_hi p ps - lon_lo p ps).
  { destruct (extremes_bound p ps a Ha) as [_ Hla].
    destruct (extremes_bound p ps b Hb) as [_ Hlb]. lra. }
  subst r. unfold _auto_region_from_points.
  fold (lat_lo p ps) (lat_hi p ps) (lon_lo p ps) (lon_hi p ps). cbv zeta.
  destruct (Rlt_dec 180 _) as [_|N]; [|contradiction].
  rewrite normalized_fields; simpl.
  rewrite !py_max_Rmax, !py_min_Rmin.
  split; [rewrite Rmin_left; lra|].
  split; [rewrite Rmax_right; lra|].
  split.
  - intros q Hq Hlat.
    destruct (extremes_bound p ps q Hq) as [Hb' _].
    unfold Rmin, Rmax; repeat destruct (Rle_dec _ _); lra.
  - intros Hall.
    destruct (extremes_bound p ps p (or_introl eq_refl)) as [Hpp _].
    assert (Hlo : -85 <= lat_lo p ps <= 85).
    { unfold lat_lo, py_min_seq.
      pose proof (fold_py_min_In (map fst ps) (fst p)) as Hin.
      change (fst p :: map fst ps) with (map fst (p :: ps)) in Hin.
      apply in_map_iff in Hin. destruct Hin as [x [<- Hx]]. now apply Hall. }
    assert (Hhi : -85 <= lat_hi p ps <= 85).
    { unfold lat_hi, py_max_seq.
      pose proof (fold_py_max_In (map fst ps) (fst p)) as Hin.
      change (fst p :: map fst ps) with (map fst (p :: ps)) in Hin.
      apply in_map_iff in Hin. destruct Hin as [x [<- Hx]]. now apply Hall. }
    unfold Rmin, Rmax; repeat destruct (Rle_dec _ _); lra.
Qed.

Lemma auto_region_global_band_witness :
  let r := _auto_region_from_points [(10.0, -170.0); (20.0, 170.0)] in
  minimum_longitude r = -180 /\ maximum_longitude r = 180.
Proof.
  assert (Ha : In (10.0, -170.0) [(10.0, -170.0); (20.0, 170.0)]) by now left.
  assert (Hb : In (20.0, 170.0) [(10.0, -170.0); (20.0, 170.0)])
    by (right; now left).
  assert (Hfar : 180 < snd (20.0, 170.0) - snd (10.0, -170.0)) by (simpl; lra).
  pose proof (auto_region_global_band _ _ _ Ha Hb Hfar) as H.
  cbv zeta in *. destruct H as [H1 [H2 _]]. now split.
Defined.

(** ** More on the great-circle distance *)

Lemma haversine_antipodal_equator :
  haversine_m 0 0 0 180 = Ok (PI * 6371000.0).
Proof.
  unfold haversine_m, math_radians. cbv zeta.
  replace ((0 * (PI / 180) - 0 * (PI / 180)) / 2) with 0 by field.
  replace ((180 - 0) * (PI / 180) / 2) with (PI / 2) by field.
  replace (0 * (PI / 180)) with 0 by field.
  rewrite sin_0, cos_0, sin_PI2.
  replace (0 ^ 2 + 1 * 1 * 1 ^ 2) with 1 by ring.
  unfold math_sqrt. destruct (Rlt_dec 1 0) as [H|_]; [lra|].
  simpl bind. rewrite sqrt_1.
  assert (E : py_min 1.0 1 = 1) by (unfold py_min; destruct (Rlt_dec _ _); lra).
  rewrite E. unfold math_asin.
  destruct (Rlt_dec 1 (-1)) as [H|_]; [lra|].
  destruct (Rlt_dec 1 1) as [H|_]; [lra|].
  simpl bind. rewrite asin_1. f_equal. field.
Qed.

(** Whenever [haversine_m] returns, the distance is not negative and not
    more than half the circumference of the sphere, [PI * 6371000] metres;
    two opposite points of the equator are exactly that far apart. *)
Theorem haversine_m_range :
  (forall lat1 lon1 lat2 lon2 d : R,
      haversine_m lat1 lon1 lat2 lon2 = Ok d ->
      0 <= d <= PI * 6371000.0) /\
  haversine_m 0 0 0 180 = Ok (PI * 6371000.0).
Proof.
  split; [|exact haversine_antipodal_equator].
  intros lat1 lon1 lat2 lon2 d Hd.
  destruct (haversine_m_value lat1 lon1 lat2 lon2) as [t [Ht E]].
  rewrite E in Hd. injection Hd as <-. lra.
Qed.

Lemma haversine_m_range_witness :
  haversine_m 0 0 0 180 = Ok (PI * 6371000.0) /\
  0 <= PI * 6371000.0 <= PI * 6371000.0.
Proof.
  split; [exact haversine_antipodal_equator|].
  exact (proj1 haversine_m_range 0 0 0 180 (PI * 6371000.0)
               haversine_antipodal_equator).
Defined.

Lemma sin_half_turn (x : R) : sin (x - PI) ^ 2 = sin x ^ 2.
Proof.
  rewrite sin_minus, cos_PI, sin_PI. ring.
Qed.

(** A full turn of 360 degrees added to either longitude changes nothing,
    and from a pole (latitude 90) every point of the same latitude is at
    distance 0 whatever the longitudes. *)
Theorem haversine_m_longitude :
  (forall lat1 lon1 lat2 lon2 : R,
      haversine_m lat1 (lon1 + 360) lat2 lon2 = haversine_m lat1 lon1 lat2 lon2) /\
  (forall lat1 lon1 lat2 lon2 : R,
      haversine_m lat1 lon1 lat2 (lon2 - 360) = haversine_m lat1 lon1 lat2 lon2) /\
  (forall lon1 lon2 : R, haversine_m 90 lon1 90 lon2 = Ok 0).
Proof.
  assert (G : forall lat1 lon1 lat2 lon2 lon1' lon2',
             (lon2' - lon1') = (lon2 - lon1) - 360 ->
             haversine_m lat1 lon1' lat2 lon2' = haversine_m lat1 lon1 lat2 lon2).
  { intros lat1 lon1 lat2 lon2 lon1' lon2' E.
    unfold haversine_m, math_radians. cbv zeta. rewrite E.
    replace (((lon2 - lon1 - 360) * (PI / 180)) / 2)
      with ((lon2 - lon1) * (PI / 180) / 2 - PI) by field.
    now rewrite sin_half_turn. }
  split; [|split].
  - intros. apply G. lra.
  - intros. apply G. lra.
  - intros lon1 lon2. unfold haversine_m, math_radians. cbv zeta.
    replace (90 * (PI / 180)) with (PI / 2) by field.
    replace ((PI / 2 - PI / 2) / 2) with 0 by field.
    rewrite sin_0, cos_PI2.
    replace (0 ^ 2 + 0 * 0 * sin ((lon2 - lon1) * (PI / 180) / 2) ^ 2)
      with 0 by ring.
    unfold math_sqrt. destruct (Rlt_dec 0 0) as [H|_]; [lra|].
    simpl bind. rewrite sqrt_0.
    assert (E : py_min 1.0 0 = 0) by (unfold py_min; destruct (Rlt_dec _ _); lra).
    rewrite E. unfold math_asin.
    destruct (Rlt_dec 0 (-1)) as [H|_]; [lra|].
    destruct (Rlt_dec 1 0) as [H|_]; [lra|].
    simpl bind. rewrite asin_0. f_equal. ring.
Qed.

(** ** More on the aspect ratio *)

Lemma cos_radians_pos (x : R) : -90 < x < 90 -> 0 < cos (math_radians x).
Proof.
  intros Hx. unfold math_radians. pose proof PI_RGT_0.
  apply cos_gt_0; nra.
Qed.

(** For a region of positive width whose mean latitude is strictly between
    the poles, the aspect ratio is the height over the width shortened by
    the cosine of the mean latitude; it is positive when the height is, so
    the figure gets a positive height. *)
Theorem geographic_aspect_positive :
  forall region : Region,
    minimum_longitude region < maximum_longitude region ->
    minimum_latitude region < maximum_latitude region ->
    -90 < (minimum_latitude region + maximum_latitude region) / 2 < 90 ->
    exists v,
      geographic_aspect region = Ok v /\ 0 < v /\
      v * ((maximum_longitude region - minimum_longitude region)
           * cos (math_radians
                    ((minimum_latitude region + maximum_latitude region) / 2)))
      = maximum_latitude region - minimum_latitude region.
Proof.
  intros region Hlon Hlat Hmean.
  pose proof (cos_radians_pos _ Hmean) as Hcos.
  unfold geographic_aspect. cbv zeta.
  rewrite normalized_of_ordered by (unfold ordered; lra).
  set (den := (maximum_longitude region - minimum_longitude region) * _).
  assert (Hden : 0 < den) by (unfold den; apply Rmult_lt_0_compat; lra).
  destruct (Req_dec_T den 0) as [E|_]; [lra|].
  unfold py_div. destruct (Req_dec_T den 0) as [E|_]; [lra|].
  eexists. split; [reflexivity|]. split.
  - apply Rdiv_lt_0_compat; lra.
  - field. lra.
Qed.

Lemma geographic_aspect_positive_witness :
  exists v, geographic_aspect (mkRegion 0 2 (-1) 1) = Ok v /\ 0 < v /\
            v * ((2 - 0) * cos (math_radians ((-1 + 1) / 2))) = 1 - -1.
Proof.
  refine (geographic_aspect_positive (mkRegion 0 2 (-1) 1) _ _ _);
    simpl; lra.
Defined.

(** The script's aspect function and the module's one agree on a region
    given in order whose width and cosine factor are not zero; on a region
    of zero width the script divides by zero where the module returns
    1.0. *)
Theorem script_aspect_agrees :
  (forall lon_min lon_max lat_min lat_max : R,
      lon_min <= lon_max -> lat_min <= lat_max ->
      (lon_max - lon_min) * cos (math_radians ((lat_min + lat_max) / 2)) <> 0 ->
      script_geographic_aspect lon_min lon_max lat_min lat_max
      = geographic_aspect (mkRegion lon_min lon_max lat_min lat_max)) /\
  (forall lon lat_min lat_max : R,
      script_geographic_aspect lon lon lat_min lat_max
      = Raise (ZeroDivisionError "float division by zero") /\
      geographic_aspect (mkRegion lon lon lat_min lat_max) = Ok 1.0).
Proof.
  split.
  - intros lon_min lon_max lat_min lat_max Hlon Hlat Hden.
    unfold script_geographic_aspect, geographic_aspect. cbv zeta.
    rewrite normalized_of_ordered by (unfold ordered; simpl; lra). simpl.
    destruct (Req_dec_T _ 0) as [E|_]; [contradiction|reflexivity].
  - intros lon lat_min lat_max. split.
    + unfold script_geographic_aspect, py_div. cbv zeta.
      destruct (Req_dec_T _ 0) as [_|N]; [reflexivity|].
      exfalso. apply N. ring.
    + unfold geographic_aspect. cbv zeta. rewrite normalized_fields. simpl.
      destruct (Req_dec_T _ 0) as [_|N]; [reflexivity|].
      exfalso. apply N.
      unfold Rmax, Rmin. destruct (Rle_dec lon lon); ring.
Qed.

Lemma script_aspect_agrees_witness :
  script_geographic_aspect 0 2 0 0 = geographic_aspect (mkRegion 0 2 0 0).
Proof.
  refine (proj1 script_aspect_agrees 0 2 0 0 _ _ _); try lra.
  unfold math_radians. replace ((0 + 0) / 2 * (PI / 180)) with 0 by field.
  rewrite cos_0. lra.
Defined.

(** ** Normalization composes *)

(** Normalizing is idempotent and leaves an ordered region as it is; so the
    region [parse_region] returns goes through the normalization at the
    start of [render_map] and the one inside [geographic_aspect] unchanged,
    and a region and its normalized form have the same aspect ratio. *)
Theorem normalized_stable :
  (forall r : Region, normalized (normalized r) = normalized r) /\
  (forall a b c d : R,
      fst (render_map_regions (parse_region a b c d) (parse_region a b c d))
      = parse_region a b c d) /\
  (forall r : Region, geographic_aspect (normalized r) = geographic_aspect r) /\
  (forall r : Region, as_extent (normalized r)
                      = [Rmin (minimum_longitude r) (maximum_longitude r);
                         Rmax (minimum_longitude r) (maximum_longitude r);
                         Rmin (minimum_latitude r) (maximum_latitude r);
                         Rmax (minimum_latitude r) (maximum_latitude r)]).
Proof.
  split; [exact normalized_idempotent|].
  split; [intros; unfold render_map_regions, parse_region; simpl;
          apply normalized_idempotent|].
  split.
  - intros r. unfold geographic_aspect. now rewrite normalized_idempotent.
  - intros r. now rewrite normalized_fields.
Qed.

(** ** Marker size *)

Lemma ln_10_pos : 0 < ln 10.
Proof. rewrite <- ln_1. apply ln_increasing; lra. Qed.

Lemma py_max_int_spec (count : Z) : py_max_int 1 count = Z.max 1 count.
Proof.
  unfold py_max_int. destruct (1 <? count)%Z eqn:E.
  - apply Z.ltb_lt in E. lia.
  - apply Z.ltb_ge in E. lia.
Qed.

Lemma ln_nonneg (x : R) : 1 <= x -> 0 <= ln x.
Proof.
  intros [H|<-]; [|rewrite ln_1; lra].
  rewrite <- ln_1. left. apply ln_increasing; lra.
Qed.

Lemma ln_mono (x y : R) : 0 < x -> x <= y -> ln x <= ln y.
Proof.
  intros Hx [H|<-]; [left; now apply ln_increasing | lra].
Qed.

(** The size as a formula: the logarithm is always taken of a number that
    is at least 1. *)
Lemma marker_size_value (count : Z) :
  marker_size count
  = Ok (7.0 + Rmin 6.0 (1.5 * (ln (IZR (Z.max 1 count)) / ln 10))).
Proof.
  unfold marker_size, math_log10. rewrite py_max_int_spec.
  assert (H : 1 <= IZR (Z.max 1 count)) by (apply IZR_le; lia).
  destruct (Rle_dec _ 0) as [H0|_]; [lra|].
  simpl bind. now rewrite py_min_Rmin.
Qed.

(** The marker size never raises and lies between 7 and 13 points; it is 7
    for a count of 1 or less, does not decrease when the count grows, and
    is 13 from a count of 10000 on. *)
Theorem marker_size_range :
  (forall count : Z, exists ms, marker_size count = Ok ms /\ 7 <= ms <= 13) /\
  (forall count : Z, (count <= 1)%Z -> marker_size count = Ok 7.0) /\
  (forall c1 c2 ms1 ms2,
      (c1 <= c2)%Z -> marker_size c1 = Ok ms1 -> marker_size c2 = Ok ms2 ->
      ms1 <= ms2) /\
  (forall count : Z, (10000 <= count)%Z -> marker_size count = Ok 13.0).
Proof.
  pose proof ln_10_pos as H10.
  split; [|split; [|split]].
  - intros count. rewrite marker_size_value. eexists. split; [reflexivity|].
    assert (H : 1 <= IZR (Z.max 1 count)) by (apply IZR_le; lia).
    apply ln_nonneg in H.
    assert (Hq : 0 <= ln (IZR (Z.max 1 count)) / ln 10)
      by (apply Rmult_le_pos; [lra | left; now apply Rinv_0_lt_compat]).
    unfold Rmin. destruct (Rle_dec _ _); lra.
  - intros count Hc. rewrite marker_size_value.
    replace (Z.max 1 count) with 1%Z by lia.
    rewrite ln_1. unfold Rdiv. rewrite Rmult_0_l, Rmult_0_r.
    rewrite Rmin_right by lra. f_equal. lra.
  - intros c1 c2 ms1 ms2 Hc. rewrite !marker_size_value.
    intros E1 E2. injection E1 as <-. injection E2 as <-.
    assert (H1 : 1 <= IZR (Z.max 1 c1)) by (apply IZR_le; lia).
    assert (H12 : IZR (Z.max 1 c1) <= IZR (Z.max 1 c2)) by (apply IZR_le; lia).
    assert (Hln : ln (IZR (Z.max 1 c1)) <= ln (IZR (Z.max 1 c2)))
      by (apply ln_mono; lra).
    assert (Hq : ln (IZR (Z.max 1 c1)) / ln 10 <= ln (IZR (Z.max 1 c2)) / ln 10).
    { unfold Rdiv. apply Rmult_le_compat_r; [|exact Hln].
      left. now apply Rinv_0_lt_compat. }
    apply Rplus_le_compat_l, Rle_min_compat_l. lra.
  - intros count Hc. rewrite marker_size_value.
    assert (Hbig : IZR 10000 <= IZR (Z.max 1 count)) by (apply IZR_le; lia).
    assert (Hln : ln (10 ^ 4) <= ln (IZR (Z.max 1 count))).
    { apply ln_mono; [lra|]. replace (10 ^ 4) with (IZR 10000) by (simpl; lra).
      exact Hbig. }
    rewrite ln_pow in Hln by lra. simpl INR in Hln.
    assert (Hq : 4 <= ln (IZR (Z.max 1 count)) / ln 10).
    { apply Rmult_le_reg_r with (ln 10); [exact H10|].
      unfold Rdiv. rewrite Rmult_assoc, Rinv_l by lra. lra. }
    rewrite Rmin_left by lra. f_equal. lra.
Qed.

Lemma marker_size_range_witness :
  (0 <= 1)%Z /\ marker_size 0 = Ok 7.0.
Proof.
  assert (H : (0 <= 1)%Z) by lia.
  split; [exact H|].
  exact (proj1 (proj2 marker_size_range) 0%Z H).
Defined.

(** ** More on clustering *)

Lemma assign_point_cons (lat lon min_distance_m : R) (c : cluster)
                        (rest : list cluster) (d : R) :
  (1 <= count_of c)%Z ->
  haversine_m lat lon (fst (fst c)) (snd (fst c)) = Ok d ->
  assign_point lat lon min_distance_m (c :: rest)
  = if Rle_dec d min_distance_m then Ok (Some (absorb lat lon c :: rest))
    else (r <- assign_point lat lon min_distance_m rest ;;
          Ok (option_map (cons c) r)).
Proof.
  destruct c as [[clat clon] count]. unfold count_of. simpl fst; simpl snd.
  intros Hc Hd. simpl assign_point. rewrite Hd. simpl bind.
  destruct (Rle_dec d min_distance_m); [|reflexivity].
  cbv zeta. rewrite !py_div_count by assumption. reflexivity.
Qed.

Lemma not_within_far (lat lon min_distance_m : R) (c : cluster) (d : R) :
  haversine_m lat lon (fst (fst c)) (snd (fst c)) = Ok d ->
  ~ d <= min_distance_m -> ~ within lat lon min_distance_m c.
Proof.
  intros Hd Hfar [d' [Hd' Hle]]. rewrite Hd in Hd'. injection Hd' as <-.
  contradiction.
Qed.

Lemma assign_point_search :
  forall (lat lon min_distance_m : R) (clusters : list cluster),
    Forall (fun c => (1 <= count_of c)%Z) clusters ->
    exists r,
      assign_point lat lon min_distance_m clusters = Ok r /\
      match r with
      | None => Forall (fun c => ~ within lat lon min_distance_m c) clusters
      | Some clusters' =>
          exists pre c post,
            clusters = pre ++ c :: post /\
            Forall (fun c' => ~ within lat lon min_distance_m c') pre /\
            within lat lon min_distance_m c /\
            clusters' = pre ++ absorb lat lon c :: post
      end.
Proof.
  intros lat lon D clusters.
  induction clusters as [|c rest IH]; intros Hpop.
  - exists None. split; [reflexivity|constructor].
  - inversion Hpop as [|c' l Hc Hrest]; subst.
    destruct (haversine_m_total lat lon (fst (fst c)) (snd (fst c))) as [d Hd].
    rewrite (assign_point_cons lat lon D c rest d Hc Hd).
    destruct (Rle_dec d D) as [Hin|Hout].
    + eexists. split; [reflexivity|].
      exists [], c, rest. repeat split; [constructor|].
      exists d. now split.
    + destruct (IH Hrest) as [r [Hr Hspec]]. rewrite Hr. simpl bind.
      eexists. split; [reflexivity|].
      pose proof (not_within_far lat lon D c d Hd Hout) as Hfar.
      destruct r as [rest'|]; simpl.
      * destruct Hspec as [pre [c0 [post [E [Hpre [Hc0 E']]]]]].
        exists (c :: pre), c0, post. subst.
        repeat split; [constructor; assumption | assumption].
      * constructor; assumption.
Qed.

(** The inner loop is a first-match search: whenever it returns, either
    the point has joined the first cluster within range, whose centroid and
    count are updated where it stands while every other cluster is left as
    it was, or the loop reports no match and no cluster is within range. *)
Theorem assign_point_first_match :
  forall (lat lon min_distance_m : R) (clusters : list cluster)
         (r : option (list cluster)),
    Forall (fun c => (1 <= count_of c)%Z) clusters ->
    assign_point lat lon min_distance_m clusters = Ok r ->
    match r with
    | None => Forall (fun c => ~ within lat lon min_distance_m c) clusters
    | Some clusters' =>
        exists pre c post,
          clusters = pre ++ c :: post /\
          Forall (fun c' => ~ within lat lon min_distance_m c') pre /\
          within lat lon min_distance_m c /\
          clusters' = pre ++ absorb lat lon c :: post
    end.
Proof.
  intros lat lon D clusters r Hpop Hrun.
  destruct (assign_point_search lat lon D clusters Hpop) as [r' [Hr Hspec]].
  rewrite Hr in Hrun. injection Hrun as <-. exact Hspec.
Qed.

Lemma assign_point_joins_first :
  assign_point 0 0 1 [(0, 0, 1%Z); (0, 0, 5%Z)]
  = Ok (Some [absorb 0 0 (0, 0, 1%Z); (0, 0, 5%Z)]).
Proof.
  assert (Hc : (1 <= count_of (0%R, 0%R, 1%Z))%Z) by (unfold count_of; simpl; lia).
  etransitivity;
    [exact (assign_point_cons 0 0 1 (0, 0, 1%Z) [(0, 0, 5%Z)] 0 Hc
                              (haversine_m_same 0 0))|].
  destruct (Rle_dec 0 1) as [_|N]; [reflexivity | lra].
Qed.

Lemma assign_point_first_match_witness :
  exists pre c post,
    [(0, 0, 1%Z); (0, 0, 5%Z)] = pre ++ c :: post /\
    Forall (fun c' => ~ within 0 0 1 c') pre /\
    within 0 0 1 c /\
    [absorb 0 0 (0, 0, 1%Z); (0, 0, 5%Z)] = pre ++ absorb 0 0 c :: post.
Proof.
  refine (assign_point_first_match 0 0 1 [(0, 0, 1%Z); (0, 0, 5%Z)]
            (Some [absorb 0 0 (0, 0, 1%Z); (0, 0, 5%Z)]) _
            assign_point_joins_first).
  repeat constructor; unfold count_of; simpl; lia.
Defined.

Lemma assign_point_none (lat lon min_distance_m : R) (clusters : list cluster) :
  Forall (fun c => (1 <= count_of c)%Z) clusters ->
  Forall (fun c => ~ within lat lon min_distance_m c) clusters ->
  assign_point lat lon min_distance_m clusters = Ok None.
Proof.
  intros Hpop Hfar.
  destruct (assign_point_inv lat lon min_distance_m clusters Hpop) as [r [Hr _]].
  rewrite Hr. f_equal.
  destruct r as [cl'|]; [exfalso|reflexivity].
  revert cl' Hr. induction clusters as [|c rest IH]; intros cl' Hr;
    [discriminate|].
  inversion Hpop as [|? ? Hc Hrest]; subst.
  inversion Hfar as [|? ? Hfc Hfrest]; subst.
  destruct (haversine_m_total lat lon (fst (fst c)) (snd (fst c))) as [d Hd].
  rewrite (assign_point_cons lat lon min_distance_m c rest d Hc Hd) in Hr.
  destruct (Rle_dec d min_distance_m) as [Hin|_].
  - apply Hfc. exists d. now split.
  - destruct (assign_point_inv lat lon min_distance_m rest Hrest) as [r' [Hr' _]].
    rewrite Hr' in Hr. simpl bind in Hr.
    destruct r' as [rest'|]; [|discriminate].
    exact (IH Hrest Hfrest rest' Hr').
Qed.

Lemma singletons_populated (points : list point) :
  Forall (fun c => (1 <= count_of c)%Z) (map singleton points).
Proof. exact (proj1 (singletons_inv points)). Qed.

Lemma cluster_loop_apart (min_distance_m : R) (post : list point) :
  forall pre : list point,
    far_apart min_distance_m (pre ++ post) ->
    cluster_loop min_distance_m post (map singleton pre)
    = Ok (map singleton (pre ++ post)).
Proof.
  induction post as [|p post IH]; intros pre Hfar.
  - now rewrite app_nil_r.
  - rewrite cluster_loop_cons.
    rewrite assign_point_none.
    + simpl bind.
      replace (map singleton pre ++ [(fst p, snd p, 1%Z)])
        with (map singleton (pre ++ [p]))
        by (rewrite map_app; reflexivity).
      replace (pre ++ p :: post) with ((pre ++ [p]) ++ post)
        by (rewrite <- app_assoc; reflexivity).
      apply IH. rewrite <- app_assoc. exact Hfar.
    + apply singletons_populated.
    + apply Forall_forall. intros c Hc.
      apply in_map_iff in Hc. destruct Hc as [q [<- Hq]].
      intros [d [Hd Hle]]. simpl in Hd.
      pose proof (Hfar pre p post q d eq_refl Hq Hd). lra.
Qed.



(** *** Centroids stay among the points *)

Definition boxed (lat_min lat_max lon_min lon_max : R) (clusters : list cluster)
  : Prop :=
  Forall (fun c => in_box lat_min lat_max lon_min lon_max
                          (fst (fst c)) (snd (fst c)) /\
                   (1 <= count_of c)%Z) clusters.

Lemma running_mean_between (lo hi old x : R) (count : Z) :
  (1 <= count)%Z -> lo <= old <= hi -> lo <= x <= hi ->
  lo <= (old * IZR count + x) / IZR (count + 1) <= hi.
Proof.
  intros Hc Hold Hx.
  assert (Hn : 1 <= IZR count) by (apply IZR_le in Hc; exact Hc).
  rewrite plus_IZR.
  assert (Hpos : 0 < IZR count + 1) by lra.
  split.
  - apply Rmult_le_reg_r with (IZR count + 1); [exact Hpos|].
    unfold Rdiv. rewrite Rmult_assoc, Rinv_l by lra. nra.
  - apply Rmult_le_reg_r with (IZR count + 1); [exact Hpos|].
    unfold Rdiv. rewrite Rmult_assoc, Rinv_l by lra. nra.
Qed.

Lemma absorb_boxed (lat_min lat_max lon_min lon_max lat lon : R) (c : cluster) :
  in_box lat_min lat_max lon_min lon_max lat lon ->
  in_box lat_min lat_max lon_min lon_max (fst (fst c)) (snd (fst c)) /\
  (1 <= count_of c)%Z ->
  in_box lat_min lat_max lon_min lon_max
         (fst (fst (absorb lat lon c))) (snd (fst (absorb lat lon c))) /\
  (1 <= count_of (absorb lat lon c))%Z.
Proof.
  destruct c as [[clat clon] count]. unfold count_of, in_box. simpl.
  intros [Hlat Hlon] [[Hclat Hclon] Hc].
  split; [|lia].
  split; apply running_mean_between; assumption.
Qed.

Lemma boxed_populated (a b c d : R) (clusters : list cluster) :
  boxed a b c d clusters -> Forall (fun k => (1 <= count_of k)%Z) clusters.
Proof.
  unfold boxed. apply Forall_impl. now intros k [_ H].
Qed.

Lemma cluster_loop_boxed (a b c d min_distance_m : R) (points : list point) :
  forall clusters out,
    (forall q, In q points -> in_box a b c d (fst q) (snd q)) ->
    boxed a b c d clusters ->
    cluster_loop min_distance_m points clusters = Ok out ->
    boxed a b c d out.
Proof.
  induction points as [|p rest IH]; intros clusters out Hpts Hbox Hrun.
  - simpl in Hrun. now injection Hrun as <-.
  - rewrite cluster_loop_cons in Hrun.
    assert (Hp : in_box a b c d (fst p) (snd p)) by (apply Hpts; now left).
    assert (Hrest : forall q, In q rest -> in_box a b c d (fst q) (snd q))
      by (intros q Hq; apply Hpts; now right).
    destruct (assign_point_search (fst p) (snd p) min_distance_m clusters
                (boxed_populated _ _ _ _ _ Hbox)) as [r [Hr Hspec]].
    rewrite Hr in Hrun. simpl bind in Hrun.
    destruct r as [clusters'|].
    + destruct Hspec as [pre [k [post [E [_ [_ E']]]]]]. subst.
      refine (IH _ out Hrest _ Hrun).
      unfold boxed in *. apply Forall_app in Hbox. destruct Hbox as [Hpre Hk].
      inversion Hk as [|? ? Hk0 Hpost]; subst.
      apply Forall_app. split; [exact Hpre|].
      constructor; [|exact Hpost].
      now apply absorb_boxed.
    + refine (IH _ out Hrest _ Hrun).
      unfold boxed in *. apply Forall_app. split; [exact Hbox|].
      constructor; [|constructor].
      split; [exact Hp | unfold count_of; simpl; lia].
Qed.

Lemma cluster_points_boxed :
  forall (points : list point) (min_distance_m : R)
         (lat_min lat_max lon_min lon_max : R) (clusters : list cluster),
    (forall q, In q points ->
               in_box lat_min lat_max lon_min lon_max (fst q) (snd q)) ->
    cluster_points points min_distance_m = Ok clusters ->
    forall lat lon count,
      In (lat, lon, count) clusters ->
      in_box lat_min lat_max lon_min lon_max lat lon.
Proof.
  intros points D a b c d clusters Hpts Hrun lat lon count Hin.
  assert (Hbox : boxed a b c d clusters).
  { unfold cluster_points in Hrun. destruct points as [|p ps].
    - injection Hrun as <-. constructor.
    - destruct (Rle_dec D 0) as [_|_].
      + rewrite singleton_map in Hrun. injection Hrun as <-.
        unfold boxed. apply Forall_forall. intros k Hk.
        change (In k (map singleton (p :: ps))) in Hk.
        apply in_map_iff in Hk. destruct Hk as [q [<- Hq]].
        split; [exact (Hpts q Hq) | unfold count_of; simpl; lia].
      + apply (cluster_loop_boxed a b c d D (p :: ps) [] clusters Hpts);
          [constructor | exact Hrun]. }
  unfold boxed in Hbox. rewrite Forall_forall in Hbox.
  exact (proj1 (Hbox _ Hin)).
Qed.

(** Whatever the limit, every centroid that clustering returns lies in
    every latitude and longitude box that holds all the input points: a
    running mean never leaves the range of the values it averages. *)
Theorem cluster_points_in_box :
  forall (points : list point) (min_distance_m : R)
         (lat_min lat_max lon_min lon_max : R) (clusters : list cluster),
    (forall q, In q points ->
               in_box lat_min lat_max lon_min lon_max (fst q) (snd q)) ->
    cluster_points points min_distance_m = Ok clusters ->
    forall lat lon count,
      In (lat, lon, count) clusters ->
      in_box lat_min lat_max lon_min lon_max lat lon.
Proof.
  intros points D a b c d clusters Hpts Hrun lat lon count Hin.
  exact (cluster_points_boxed points D a b c d clusters Hpts Hrun
                              lat lon count Hin).
Qed.

(** Clustering returns, with at most one cluster per point. *)
Lemma cluster_points_returns (points : list point) (min_distance_m : R) :
  exists clusters,
    cluster_points points min_distance_m = Ok clusters /\
    (List.length clusters <= List.length points)%nat.
Proof.
  unfold cluster_points. destruct points as [|p ps].
  - exists []. split; [reflexivity | simpl; lia].
  - destruct (Rle_dec min_distance_m 0) as [_|_].
    + eexists. split; [reflexivity|]. rewrite length_map. apply Nat.le_refl.
    + destruct (cluster_loop_inv min_distance_m (p :: ps) [] (Forall_nil _))
        as [out [Ho [_ [_ Hl]]]].
      exists out. split; [exact Ho | exact Hl].
Qed.

Lemma cluster_points_in_box_witness :
  exists clusters,
    cluster_points [(0, 0); (2, 4)] 1000 = Ok clusters /\
    forall lat lon count,
      In (lat, lon, count) clusters -> in_box 0 2 0 4 lat lon.
Proof.
  destruct (cluster_points_returns [(0, 0); (2, 4)] 1000) as [clusters [Hrun _]].
  exists clusters. split; [exact Hrun|].
  refine (cluster_points_in_box [(0, 0); (2, 4)] 1000 0 2 0 4 clusters _ Hrun).
  intros q [<-|[<-|[]]]; unfold in_box; simpl; lra.
Defined.

(** ** The summary map *)

Lemma marker_size_between (count : Z) (ms : R) :
  marker_size count = Ok ms -> 7 <= ms <= 13.
Proof.
  rewrite marker_size_value. intros E. injection E as <-.
  pose proof ln_10_pos as H10.
  assert (H : 1 <= IZR (Z.max 1 count)) by (apply IZR_le; lia).
  apply ln_nonneg in H.
  assert (Hq : 0 <= ln (IZR (Z.max 1 count)) / ln 10)
    by (apply Rmult_le_pos; [lra | left; now apply Rinv_0_lt_compat]).
  unfold Rmin. destruct (Rle_dec _ _); lra.
Qed.

(** The plotting loop draws one marker per cluster, at the centroid. *)
Lemma plot_clusters_spec (clusters : list cluster) :
  exists ms_list,
    plot_clusters clusters = Ok ms_list /\
    List.length ms_list = List.length clusters /\
    forall lon lat ms,
      In (lon, lat, ms) ms_list ->
      exists count, In (lat, lon, count) clusters /\ marker_size count = Ok ms.
Proof.
  induction clusters as [|[[lat lon] count] rest [ms_rest [Hr [Hl Hin]]]].
  - exists []. repeat split. intros ? ? ? [].
  - simpl plot_clusters. rewrite marker_size_value. simpl bind.
    rewrite Hr. simpl bind.
    eexists. split; [reflexivity|]. split; [simpl; now rewrite Hl|].
    intros lon' lat' ms' [E|Hin'].
    + injection E as <- <- <-. exists count.
      split; [now left | apply marker_size_value].
    + destruct (Hin _ _ _ Hin') as [count' [Hc Hm]].
      exists count'. split; [now right | exact Hm].
Qed.

(** Whenever the summary renderer gets as far as drawing, it draws on the
    extent of the auto region at most one marker per input point, each of a
    size between 7 and 13; and when the longitudes of the points span at
    most 180 degrees, every marker lies inside that extent, at least half a
    degree from its borders. *)
Theorem render_summary_map_sound :
  forall (points : list point) (min_distance_m : R) (fig : summary_figure),
    render_summary_map points min_distance_m = Ok fig ->
    extent fig = as_extent (_auto_region_from_points points) /\
    (List.length (markers fig) <= List.length points)%nat /\
    (forall lon lat ms, In (lon, lat, ms) (markers fig) -> 7 <= ms <= 13) /\
    ((forall a b, In a points -> In b points -> snd b - snd a <= 180) ->
     forall lon lat ms,
       In (lon, lat, ms) (markers fig) ->
       let r := _auto_region_from_points points in
       minimum_longitude r + 0.5 <= lon <= maximum_longitude r - 0.5 /\
       minimum_latitude r + 0.5 <= lat <= maximum_latitude r - 0.5).
Proof.
  intros points D fig Hrun. unfold render_summary_map in Hrun. cbv zeta in Hrun.
  destruct (cluster_points_returns points D) as [clusters [Hc Hlen]].
  rewrite Hc in Hrun. simpl bind in Hrun.
  destruct (plot_clusters_spec clusters) as [ms_list [Hp [Hl Hin]]].
  rewrite Hp in Hrun. simpl bind in Hrun.
  injection Hrun as <-. simpl.
  split; [reflexivity|].
  split; [rewrite Hl; exact Hlen|].
  split.
  - intros lon lat ms Hm. destruct (Hin _ _ _ Hm) as [count [_ Hs]].
    exact (marker_size_between count ms Hs).
  - intros Hspan lon lat ms Hm.
    destruct (Hin _ _ _ Hm) as [count [Hk _]].
    destruct points as [|p ps].
    { unfold cluster_points in Hc. injection Hc as <-. destruct Hk. }
    assert (Hbox : in_box (lat_lo p ps) (lat_hi p ps) (lon_lo p ps) (lon_hi p ps)
                          lat lon).
    { refine (cluster_points_boxed (p :: ps) D _ _ _ _ clusters _ Hc
                                   lat lon count Hk).
      intros q Hq. unfold in_box. now apply extremes_bound. }
    rewrite (auto_region_local p ps (local_span p ps Hspan)). simpl.
    destruct Hbox as [Hlat Hlon].
    pose proof (Rmax_l 0.5 ((lon_hi p ps - lon_lo p ps) * 0.35)).
    pose proof (Rmax_l 0.5 ((lat_hi p ps - lat_lo p ps) * 0.35)).
    lra.
Qed.

Lemma render_summary_map_far_pair :
  render_summary_map [(0, 0); (0, 180)] 1
  = Ok (mkSummaryFigure (as_extent (_auto_region_from_points [(0, 0); (0, 180)]))
                        [(0, 0, 7.0 + Rmin 6.0 (1.5 * (ln (IZR (Z.max 1 1)) / ln 10)));
                         (180, 0, 7.0 + Rmin 6.0 (1.5 * (ln (IZR (Z.max 1 1)) / ln 10)))]).
Proof.
  unfold render_summary_map. cbv zeta.
  assert (Hfar : far_apart 1 [(0, 0); (0, 180)]).
  { intros pre p post q d Hsplit Hq Hd.
    destruct pre as [|a [|b pre']]; [destruct Hq| |].
    - simpl in Hsplit. injection Hsplit as <- <- <-.
      destruct Hq as [<-|[]]. simpl in Hd.
      rewrite haversine_m_sym, haversine_antipodal_equator in Hd.
      injection Hd as <-. pose proof PI2_3_2. lra.
    - simpl in Hsplit. injection Hsplit as _ _ Hnil.
      destruct pre'; discriminate Hnil. }
  assert (Hc : cluster_points [(0, 0); (0, 180)] 1
               = Ok [(0, 0, 1%Z); (0, 180, 1%Z)]).
  { unfold cluster_points. destruct (Rle_dec 1 0) as [H|_]; [lra|].
    exact (cluster_loop_apart 1 [(0, 0); (0, 180)] [] Hfar). }
  rewrite Hc. simpl bind. simpl plot_clusters.
  rewrite !marker_size_value. reflexivity.
Qed.

Lemma render_summary_map_sound_witness :
  render_summary_map [(0, 0); (0, 180)] 1
  = Ok (mkSummaryFigure (as_extent (_auto_region_from_points [(0, 0); (0, 180)]))
                        [(0, 0, 7.0 + Rmin 6.0 (1.5 * (ln (IZR (Z.max 1 1)) / ln 10)));
                         (180, 0, 7.0 + Rmin 6.0 (1.5 * (ln (IZR (Z.max 1 1)) / ln 10)))]) /\
  7 <= 7.0 + Rmin 6.0 (1.5 * (ln (IZR (Z.max 1 1)) / ln 10)) <= 13 /\
  (let r := _auto_region_from_points [(0, 0); (0, 180)] in
   minimum_longitude r + 0.5 <= 180 <= maximum_longitude r - 0.5 /\
   minimum_latitude r + 0.5 <= 0 <= maximum_latitude r - 0.5).
Proof.
  pose proof (render_summary_map_sound [(0, 0); (0, 180)] 1 _
                render_summary_map_far_pair) as [_ [_ [Hsize Hin]]].
  split; [exact render_summary_map_far_pair|].
  split.
  - refine (Hsize 180 0 _ _). simpl. right. left. reflexivity.
  - refine (Hin _ 180 0 _ _).
    + intros a b [<-|[<-|[]]] [<-|[<-|[]]]; simpl; lra.
    + simpl. right. left. reflexivity.
Defined.

(** ** Command-line values *)

Section CommandLine.

Variable float_of : string -> option R.
Variable repr : string -> string.

Lemma float_each_ok (vals : list string) :
  forall xs, float_each float_of repr vals = Ok xs <->
             map float_of vals = map Some xs.
Proof.
  induction vals as [|v rest IH]; intros xs; simpl.
  - split.
    + intros E. injection E as <-. reflexivity.
    + intros E. destruct xs; [reflexivity|discriminate].
  - unfold py_float. destruct (float_of v) as [x|] eqn:Ev; simpl bind.
    + destruct (float_each float_of repr rest) as [ys|e] eqn:Er; simpl bind.
      * split.
        -- intros E. injection E as <-. simpl. f_equal. now apply IH.
        -- intros E. destruct xs as [|x' xs']; [discriminate|].
           simpl in E. injection E as -> E'.
           apply IH in E'. now injection E' as ->.
      * split; [discriminate|].
        intros E. destruct xs as [|x' xs']; [discriminate|].
        simpl in E. injection E as _ E'. apply IH in E'. discriminate E'.
    + split; [discriminate|].
      intros E. destruct xs; discriminate E.
Qed.

Lemma float_each_raises (vals : list string) (e : exn) :
  float_each float_of repr vals = Raise e ->
  exists v, In v vals /\ float_of v = None /\ e = not_a_float repr v.
Proof.
  induction vals as [|v rest IH]; simpl; [discriminate|].
  unfold py_float. destruct (float_of v) as [x|] eqn:Ev; simpl bind.
  - destruct (float_each float_of repr rest) as [ys|e'] eqn:Er; simpl bind;
      [discriminate|].
    intros E. injection E as <-.
    destruct (IH eq_refl) as [v' [Hin [Hn He]]].
    exists v'. repeat split; [now right | assumption | assumption].
  - intros E. injection E as <-. exists v. repeat split; [now left | assumption].
Qed.

Lemma float_list_cases :
  forall (values : list string) (count : nat) (name : string),
    (forall xs, _float_list float_of repr values count name = Parsed xs <->
                List.length values = count /\
                map float_of values = map Some xs) /\
    (forall e, _float_list float_of repr values count name <> Uncaught e) /\
    (List.length values <> count ->
     _float_list float_of repr values count name
     = ArgumentTypeError (name ++ " expects " ++ str_of_nat count
                          ++ " numbers, got "
                          ++ str_of_nat (List.length values))%string) /\
    (List.length values = count ->
     forall msg, _float_list float_of repr values count name
                 = ArgumentTypeError msg ->
       exists v, In v values /\ float_of v = None /\
                 msg = (name ++ " expects floats: "
                        ++ "could not convert string to float: " ++ repr v)%string).
Proof.
  intros values count name. unfold _float_list. cbv zeta.
  destruct (Nat.eqb_spec (List.length values) count) as [Hlen|Hlen]; simpl negb.
  - destruct (float_each float_of repr values) as [ys|e] eqn:Er.
    + split; [|split; [|split]].
      * intros xs. split.
        -- intros E. injection E as <-. split; [exact Hlen|].
           now apply float_each_ok.
        -- intros [_ E]. apply float_each_ok in E. rewrite Er in E.
           now injection E as ->.
      * discriminate.
      * contradiction.
      * discriminate.
    + destruct (float_each_raises values e Er) as [v [Hin [Hn ->]]].
      unfold not_a_float.
      split; [|split; [|split]].
      * intros xs. split; [discriminate|].
        intros [_ E]. apply float_each_ok in E. rewrite Er in E. discriminate E.
      * discriminate.
      * contradiction.
      * intros _ msg E. injection E as <-. exists v. now repeat split.
  - split; [|split; [|split]].
    + intros xs. split; [discriminate|]. intros [E _]. contradiction.
    + discriminate.
    + reflexivity.
    + contradiction.
Qed.

(** [_float_list] returns floats exactly when the number of values is the
    expected one and every value is a number, and then it returns their
    values in order; every failure is an [ArgumentTypeError], none escapes as
    another exception; and the number of values is checked first, so a wrong
    number is reported even when the values are not numbers. *)
Theorem float_list_spec :
  forall (values : list string) (count : nat) (name : string),
    (forall xs, _float_list float_of repr values count name = Parsed xs <->
                List.length values = count /\
                map float_of values = map Some xs) /\
    (forall e, _float_list float_of repr values count name <> Uncaught e) /\
    (List.length values <> count ->
     _float_list float_of repr values count name
     = ArgumentTypeError (name ++ " expects " ++ str_of_nat count
                          ++ " numbers, got "
                          ++ str_of_nat (List.length values))%string) /\
    (List.length values = count ->
     forall msg, _float_list float_of repr values count name
                 = ArgumentTypeError msg ->
       exists v, In v values /\ float_of v = None /\
                 msg = (name ++ " expects floats: "
                        ++ "could not convert string to float: " ++ repr v)%string).
Proof.
  intros values count name. exact (float_list_cases values count name).
Qed.

(** A region is parsed exactly from four values that are all numbers; it is
    then normalized, so it is ordered and the order in which the two bounds
    of an axis are given does not matter; any other input gives an
    [ArgumentTypeError], and the unpacking of the four floats never
    fails.  A star position is parsed from two numbers, latitude first. *)
Theorem parse_values_spec :
  (forall values r,
      parse_region_values float_of repr values = Parsed r <->
      exists s1 s2 s3 s4 a b c d,
        values = [s1; s2; s3; s4] /\
        float_of s1 = Some a /\ float_of s2 = Some b /\
        float_of s3 = Some c /\ float_of s4 = Some d /\
        r = normalized (mkRegion a b c d)) /\
  (forall values r,
      parse_region_values float_of repr values = Parsed r -> ordered r) /\
  (forall s1 s2 s3 s4 r,
      parse_region_values float_of repr [s1; s2; s3; s4] = Parsed r ->
      parse_region_values float_of repr [s2; s1; s4; s3] = Parsed r) /\
  (forall values e,
      parse_region_values float_of repr values <> Uncaught e /\
      parse_lat_lon float_of repr values <> Uncaught e) /\
  (forall values lat lon,
      parse_lat_lon float_of repr values = Parsed (lat, lon) <->
      exists s1 s2, values = [s1; s2] /\
                    float_of s1 = Some lat /\ float_of s2 = Some lon).
Proof.
  assert (Hreg : forall values r,
             parse_region_values float_of repr values = Parsed r <->
             exists s1 s2 s3 s4 a b c d,
               values = [s1; s2; s3; s4] /\
               float_of s1 = Some a /\ float_of s2 = Some b /\
               float_of s3 = Some c /\ float_of s4 = Some d /\
               r = normalized (mkRegion a b c d)).
  { intros values r. unfold parse_region_values.
    destruct (float_list_cases values 4 "region") as [Hp _].
    destruct (_float_list float_of repr values 4 "region") as [xs|msg|e] eqn:E.
    - destruct (proj1 (Hp xs) eq_refl) as [Hlen Hmap].
      destruct values as [|s1 [|s2 [|s3 [|s4 [|s5 rest]]]]]; try discriminate.
      destruct xs as [|a [|b [|c [|d [|x xs]]]]]; try discriminate.
      simpl in Hmap. injection Hmap as H1 H2 H3 H4.
      split.
      + intros Er. injection Er as <-.
        exists s1, s2, s3, s4, a, b, c, d. now repeat split.
      + intros [t1 [t2 [t3 [t4 [a' [b' [c' [d' [Ev [F1 [F2 [F3 [F4 ->]]]]]]]]]]]]].
        injection Ev as <- <- <- <-.
        rewrite H1 in F1. rewrite H2 in F2. rewrite H3 in F3. rewrite H4 in F4.
        injection F1 as <-. injection F2 as <-.
        injection F3 as <-. injection F4 as <-. reflexivity.
    - split; [discriminate|].
      intros [s1 [s2 [s3 [s4 [a [b [c [d [-> [F1 [F2 [F3 [F4 _]]]]]]]]]]]]].
      assert (Hok : @ArgumentTypeError (list R) msg = Parsed [a; b; c; d]).
      { apply Hp. split; [reflexivity|]. simpl. now rewrite F1, F2, F3, F4. }
      discriminate Hok.
    - destruct (float_list_cases values 4 "region") as [_ [Hu _]].
      exfalso. exact (Hu e E). }
  split; [exact Hreg|].
  split.
  { intros values r Hr. apply Hreg in Hr.
    destruct Hr as [? [? [? [? [a [b [c [d [_ [_ [_ [_ [_ ->]]]]]]]]]]]]].
    apply normalized_is_ordered. }
  split.
  { intros s1 s2 s3 s4 r Hr. apply Hreg in Hr.
    destruct Hr as [t1 [t2 [t3 [t4 [a [b [c [d [Ev [F1 [F2 [F3 [F4 ->]]]]]]]]]]]]].
    injection Ev as <- <- <- <-.
    apply Hreg. exists s2, s1, s4, s3, b, a, d, c.
    repeat split; try assumption. apply normalized_swap. }
  split.
  { intros values e. split.
    - unfold parse_region_values.
      destruct (float_list_cases values 4 "region") as [Hp [Hu _]].
      destruct (_float_list float_of repr values 4 "region") as [xs|msg|e'] eqn:E.
      + destruct (proj1 (Hp xs) eq_refl) as [Hlen Hmap].
        destruct values as [|s1 [|s2 [|s3 [|s4 [|s5 rest]]]]]; try discriminate.
        destruct xs as [|a [|b [|c [|d [|x xs]]]]]; discriminate.
      + discriminate.
      + exfalso. exact (Hu e' eq_refl).
    - unfold parse_lat_lon.
      destruct (float_list_cases values 2 "lat/lon") as [Hp [Hu _]].
      destruct (_float_list float_of repr values 2 "lat/lon") as [xs|msg|e'] eqn:E.
      + destruct (proj1 (Hp xs) eq_refl) as [Hlen Hmap].
        destruct values as [|s1 [|s2 [|s3 rest]]]; try discriminate.
        destruct xs as [|a [|b [|x xs]]]; discriminate.
      + discriminate.
      + exfalso. exact (Hu e' eq_refl). }
  intros values lat lon. unfold parse_lat_lon.
  destruct (float_list_cases values 2 "lat/lon") as [Hp [Hu _]].
  destruct (_float_list float_of repr values 2 "lat/lon") as [xs|msg|e] eqn:E.
  - destruct (proj1 (Hp xs) eq_refl) as [Hlen Hmap].
    destruct values as [|s1 [|s2 [|s3 rest]]]; try discriminate.
    destruct xs as [|a [|b [|x xs]]]; try discriminate.
    simpl in Hmap. injection Hmap as H1 H2.
    split.
    + intros Er. injection Er as <- <-. exists s1, s2. now repeat split.
    + intros [t1 [t2 [Ev [F1 F2]]]]. injection Ev as <- <-.
      rewrite H1 in F1. rewrite H2 in F2.
      injection F1 as <-. injection F2 as <-. reflexivity.
  - split; [discriminate|].
    intros [s1 [s2 [-> [F1 F2]]]].
    assert (Hok : @ArgumentTypeError (list R) msg = Parsed [lat; lon]).
    { apply Hp. split; [reflexivity|]. simpl. now rewrite F1, F2. }
    discriminate Hok.
  - exfalso. exact (Hu e eq_refl).
Qed.

End CommandLine.

Lemma float_list_spec_witness :
  _float_list digit_float plain_repr ["x"; "1"]%string 4 "region"
  = ArgumentTypeError "region expects 4 numbers, got 2".
Proof.
  refine (proj1 (proj2 (proj2 (float_list_spec digit_float plain_repr
                                  ["x"; "1"]%string 4 "region"))) _).
  simpl. lia.
Defined.

Lemma parse_values_spec_witness :
  parse_region_values digit_float plain_repr ["1"; "0"; "5"; "3"]%string
  = Parsed (normalized (mkRegion 1 0 5 3)) /\
  ordered (normalized (mkRegion 1 0 5 3)).
Proof.
  assert (H : parse_region_values digit_float plain_repr
                ["1"; "0"; "5"; "3"]%string
              = Parsed (normalized (mkRegion 1 0 5 3))).
  { apply (proj1 (parse_values_spec digit_float plain_repr)).
    exists "1"%string, "0"%string, "5"%string, "3"%string, 1, 0, 5, 3.
    repeat split. }
  split; [exact H|].
  exact (proj1 (proj2 (parse_values_spec digit_float plain_repr)) _ _ H).
Defined.

(** ** Theme *)











(** ** More on the points file *)

Section PointsFileExact.

Variable float_of : string -> option R.
Variable repr : string -> string.

Lemma read_lines_ok (lines : list string) :
  forall points out,
    read_lines float_of repr lines points = Ok out ->
    exists new, out = (points ++ new)%list /\
                map (pair_of float_of) (filter kept lines) = map Some new.
Proof.
  induction lines as [|raw rest IH]; intros points out Hr.
  - simpl in Hr. injection Hr as <-. exists []. split; [now rewrite app_nil_r|reflexivity].
  - rewrite read_lines_cons in Hr. simpl filter.
    destruct (kept raw) eqn:Hk; [|exact (IH _ _ Hr)].
    destruct (pair_of float_of raw) as [p|] eqn:Hp.
    + destruct (pair_of_Some float_of raw p Hp) as [a [b [Hf [Ha Hb]]]].
      rewrite Hf in Hr. unfold py_float in Hr. rewrite Ha, Hb in Hr.
      simpl bind in Hr.
      destruct (IH _ _ Hr) as [new [-> Hnew]].
      exists (p :: new). split.
      * rewrite <- app_assoc. now destruct p.
      * simpl. now rewrite Hp, Hnew.
    + destruct (pair_of_None float_of repr raw rest points Hk Hp)
        as [[_ Hraise] | [field [_ [_ Hraise]]]];
        rewrite read_lines_cons, Hk in Hraise;
        rewrite Hraise in Hr; discriminate Hr.
Qed.

Lemma read_lines_exact (lines : list string) (out : list point) :
  read_lines float_of repr lines [] = Ok out <->
  map (pair_of float_of) (filter kept lines) = map Some out.
Proof.
  split.
  - intros Hr. destruct (read_lines_ok lines [] out Hr) as [new [-> Hnew]].
    exact Hnew.
  - intros Hall. exact (read_lines_all_well_formed float_of repr lines [] out Hall).
Qed.

(** The points file is read to exactly the pairs of its kept lines, one
    point per line and in the order of the file: the result is [out] if and
    only if the kept lines denote the pairs [out]; so there are as many
    points as kept lines, and a file of blank lines and comments only
    gives the empty list. *)
Theorem read_points_csv_exact :
  forall (path_str : string -> string)
         (fs : string -> option (result string)) (path text : string),
    fs path = Some (Ok text) ->
    (forall out,
        _read_points_csv float_of repr path_str fs path = Ok out <->
        map (pair_of float_of) (filter kept (splitlines text)) = map Some out) /\
    (forall out,
        _read_points_csv float_of repr path_str fs path = Ok out ->
        List.length out = List.length (filter kept (splitlines text))) /\
    (filter kept (splitlines text) = [] ->
     _read_points_csv float_of repr path_str fs path = Ok []).
Proof.
  intros path_str fs path text Hfs. unfold _read_points_csv. rewrite Hfs.
  simpl bind.
  split; [intros out; apply read_lines_exact|].
  split.
  - intros out Hr. apply read_lines_exact in Hr.
    apply (f_equal (@List.length _)) in Hr. rewrite !length_map in Hr.
    now symmetry.
  - intros Hnone. apply read_lines_exact. now rewrite Hnone.
Qed.

Lemma kept_of_strip (a b : string) : strip a = strip b -> kept a = kept b.
Proof. unfold kept. now intros ->. Qed.

Lemma pair_of_strip (a b : string) :
  strip a = strip b -> pair_of float_of a = pair_of float_of b.
Proof. unfold pair_of, fields. now intros ->. Qed.

Lemma kept_pairs_of_strip (lines lines' : list string) :
  Forall2 (fun a b => strip a = strip b) lines lines' ->
  map (pair_of float_of) (filter kept lines)
  = map (pair_of float_of) (filter kept lines').
Proof.
  induction 1 as [|a b l l' Hab _ IH]; [reflexivity|].
  simpl. rewrite (kept_of_strip a b Hab).
  destruct (kept b); [|exact IH].
  simpl. now rewrite (pair_of_strip a b Hab), IH.
Qed.

End PointsFileExact.

Lemma blank_cons (c : ascii) (s : string) :
  blank (String c s) -> is_space c = true /\ blank s.
Proof.
  unfold blank. simpl. destruct (is_space c); [now split | discriminate].
Qed.

Lemma lstrip_blank_app (ws x : string) :
  blank ws -> lstrip (ws ++ x) = lstrip x.
Proof.
  induction ws as [|c ws IH]; intros Hb; [reflexivity|].
  apply blank_cons in Hb. destruct Hb as [Hc Hb].
  simpl. rewrite Hc. now apply IH.
Qed.

Lemma rstrip_blank (ws : string) : blank ws -> rstrip ws = EmptyString.
Proof.
  induction ws as [|c ws IH]; intros Hb; [reflexivity|].
  apply blank_cons in Hb. destruct Hb as [Hc Hb].
  simpl. now rewrite (IH Hb), Hc.
Qed.

Lemma rstrip_app_blank (x ws : string) :
  blank ws -> rstrip (x ++ ws) = rstrip x.
Proof.
  intros Hb. induction x as [|c x IH]; simpl.
  - now apply rstrip_blank.
  - now rewrite IH.
Qed.

Lemma lstrip_app_blank (x ws : string) :
  blank ws ->
  lstrip (x ++ ws)
  = match lstrip x with
    | EmptyString => EmptyString
    | String c t => (String c t ++ ws)%string
    end.
Proof.
  intros Hb. induction x as [|c x IH]; simpl.
  - exact Hb.
  - destruct (is_space c); [exact IH | reflexivity].
Qed.

Lemma strip_padded (ws1 raw ws2 : string) :
  blank ws1 -> blank ws2 -> strip (ws1 ++ raw ++ ws2) = strip raw.
Proof.
  intros H1 H2. unfold strip.
  rewrite (lstrip_blank_app ws1 _ H1), (lstrip_app_blank raw ws2 H2).
  destruct (lstrip raw) as [|c t]; [reflexivity|].
  now apply rstrip_app_blank.
Qed.

(** White space around a line never changes what is read: a line padded
    with white space on either side strips to the same text, and two files
    whose lines agree once stripped give the same points. *)
Theorem read_lines_ignore_padding :
  forall (float_of : string -> option R) (repr : string -> string),
    (forall ws1 raw ws2,
        blank ws1 -> blank ws2 ->
        strip (ws1 ++ raw ++ ws2) = strip raw /\
        kept (ws1 ++ raw ++ ws2) = kept raw /\
        pair_of float_of (ws1 ++ raw ++ ws2) = pair_of float_of raw) /\
    (forall lines lines' out,
        Forall2 (fun a b => strip a = strip b) lines lines' ->
        (read_lines float_of repr lines [] = Ok out <->
         read_lines float_of repr lines' [] = Ok out)).
Proof.
  intros float_of repr. split.
  - intros ws1 raw ws2 H1 H2.
    pose proof (strip_padded ws1 raw ws2 H1 H2) as E.
    split; [exact E|].
    split; [now apply kept_of_strip | now apply pair_of_strip].
  - intros lines lines' out Hagree.
    rewrite !read_lines_exact.
    now rewrite (kept_pairs_of_strip float_of lines lines' Hagree).
Qed.

Lemma read_lines_ignore_padding_witness :
  strip ("  " ++ "1,2" ++ " ") = strip "1,2" /\
  kept ("  " ++ "1,2" ++ " ") = kept "1,2" /\
  pair_of digit_float ("  " ++ "1,2" ++ " ") = pair_of digit_float "1,2".
Proof.
  refine (proj1 (read_lines_ignore_padding digit_float plain_repr)
                "  "%string "1,2"%string " "%string _ _); reflexivity.
Defined.

Lemma read_points_csv_exact_witness :
  _read_points_csv digit_float plain_repr plain_path one_good_file "points.csv"
  = Ok [(1, 2); (3, 4)] <->
  map (pair_of digit_float) (filter kept (splitlines
        ("# home" ++ String LF "1,2" ++ String LF (String CR "")
         ++ String LF " 3 , 4 " ++ String LF "")))
  = map Some [(1, 2); (3, 4)].
Proof.
  exact (proj1 (read_points_csv_exact digit_float plain_repr plain_path
                  one_good_file "points.csv"%string _ eq_refl) [(1, 2); (3, 4)]).
Defined.

Lemma detect_side_left_right_witness :
  detect_side (mkBbox 0.1 0.4 0.3 0.7) 0.5 0.5 0.6 0.6 = right_ /\
  detect_side (mkBbox 0.7 0.4 0.9 0.7) 0.5 0.5 0.6 0.6 = left_.
Proof.
  assert (Hmin : py_min 0.5 0.6 = 0.5)
    by (unfold py_min; destruct (Rlt_dec 0.6 0.5); lra).
  assert (Hmax : py_max 0.5 0.6 = 0.6)
    by (unfold py_max; destruct (Rlt_dec 0.5 0.6); lra).
  split.
  - refine (proj1 (detect_side_left_right (mkBbox 0.1 0.4 0.3 0.7)
                     0.5 0.5 0.6 0.6 _ _) _);
      rewrite ?Hmin, ?Hmax; unfold eps; simpl; lra.
  - refine (proj2 (detect_side_left_right (mkBbox 0.7 0.4 0.9 0.7)
                     0.5 0.5 0.6 0.6 _ _) _ _);
      rewrite ?Hmin, ?Hmax; unfold eps; simpl; lra.
Defined.

(** ** Inset placement and the marker *)

Lemma inset_corner_cases (fig inset_size inset_margin : R) :
  0 < inset_margin ->
  (fig < 1 - inset_size - inset_margin ->
   fig < inset_corner fig inset_size inset_margin) /\
  (1 - inset_size - inset_margin <= fig ->
   inset_corner fig inset_size inset_margin = 1 - inset_size - inset_margin).
Proof.
  intros Hm. unfold inset_corner.
  pose proof (py_max_ge (fig + inset_margin) inset_margin) as [Hmax _].
  unfold py_min. destruct (Rlt_dec _ _); split; intros; lra.
Qed.

(** The room requested for the inset lies up and to the right of the
    marker and holds it only in the corner where the clamp takes over: for a
    positive margin, the marker lies in that room exactly when both of its
    figure coordinates are between [1 - inset_size - margin] and
    [1 - margin]; so a marker with a coordinate outside this range lies on
    no panel that is drawn within the requested room. *)
Theorem requested_inset_holds_marker :
  forall x_fig y_fig inset_size inset_margin : R,
    0 < inset_margin ->
    (covers (requested_inset x_fig y_fig inset_size inset_margin) x_fig y_fig <->
     1 - inset_size - inset_margin <= x_fig <= 1 - inset_margin /\
     1 - inset_size - inset_margin <= y_fig <= 1 - inset_margin) /\
    (forall panel : Bbox,
        fits_in panel (requested_inset x_fig y_fig inset_size inset_margin) ->
        ~ (1 - inset_size - inset_margin <= x_fig <= 1 - inset_margin /\
           1 - inset_size - inset_margin <= y_fig <= 1 - inset_margin) ->
        ~ covers panel x_fig y_fig).
Proof.
  intros x y s m Hm.
  assert (Hiff : covers (requested_inset x y s m) x y <->
                 1 - s - m <= x <= 1 - m /\ 1 - s - m <= y <= 1 - m).
  { unfold covers, requested_inset, inset_rect. simpl.
    destruct (inset_corner_cases x s m Hm) as [Hxl Hxr].
    destruct (inset_corner_cases y s m Hm) as [Hyl Hyr].
    split.
    - intros [[Hx0 Hx1] [Hy0 Hy1]].
      destruct (Rlt_le_dec x (1 - s - m)) as [Hx|Hx]; [specialize (Hxl Hx); lra|].
      destruct (Rlt_le_dec y (1 - s - m)) as [Hy|Hy]; [specialize (Hyl Hy); lra|].
      rewrite (Hxr Hx) in Hx1. rewrite (Hyr Hy) in Hy1. lra.
    - intros [[Hx0 Hx1] [Hy0 Hy1]].
      rewrite (Hxr Hx0), (Hyr Hy0). lra. }
  split; [exact Hiff|].
  intros panel [Hx0 [Hx1 [Hy0 Hy1]]] Hout [Hcx Hcy].
  apply Hout, Hiff. unfold covers. lra.
Qed.

Lemma requested_inset_holds_marker_witness :
  covers (requested_inset 0.8 0.9 DEFAULT_inset_size DEFAULT_inset_margin) 0.8 0.9.
Proof.
  assert (Hm : 0 < DEFAULT_inset_margin) by (unfold DEFAULT_inset_margin; lra).
  apply (proj2 (proj1 (requested_inset_holds_marker 0.8 0.9 DEFAULT_inset_size
                                                    DEFAULT_inset_margin Hm))).
  unfold DEFAULT_inset_size, DEFAULT_inset_margin. lra.
Defined.

(** ** The auto region and the order of the points *)

Lemma extremes_of_same_points (p q : point) (ps qs : list point) :
  (forall x, In x (p :: ps) <-> In x (q :: qs)) ->
  lat_lo p ps = lat_lo q qs /\ lat_hi p ps = lat_hi q qs /\
  lon_lo p ps = lon_lo q qs /\ lon_hi p ps = lon_hi q qs.
Proof.
  intros Hsame.
  assert (Hf : forall y, In y (fst p :: map fst ps) <-> In y (fst q :: map fst qs)).
  { intros y. change (In y (map fst (p :: ps)) <-> In y (map fst (q :: qs))).
    rewrite !in_map_iff. split; intros [x [E Hx]]; exists x;
      (split; [exact E | now apply Hsame]). }
  assert (Hs : forall y, In y (snd p :: map snd ps) <-> In y (snd q :: map snd qs)).
  { intros y. change (In y (map snd (p :: ps)) <-> In y (map snd (q :: qs))).
    rewrite !in_map_iff. split; intros [x [E Hx]]; exists x;
      (split; [exact E | now apply Hsame]). }
  unfold lat_lo, lat_hi, lon_lo, lon_hi.
  repeat split; apply Rle_antisym;
    first [ apply py_min_seq_le; apply Hf; apply fold_py_min_In
          | apply py_min_seq_le; apply Hf; apply fold_py_min_In
          | apply py_min_seq_le; apply Hs; apply fold_py_min_In
          | apply py_max_seq_ge; apply Hf; apply fold_py_max_In
          | apply py_max_seq_ge; apply Hs; apply fold_py_max_In ].
Qed.

(** The auto region depends on which points there are, not on their order
    or on how often each occurs: two point lists with the same members
    give the same region. *)
Theorem auto_region_same_points :
  forall points points' : list point,
    (forall x, In x points <-> In x points') ->
    _auto_region_from_points points = _auto_region_from_points points'.
Proof.
  intros points points' Hsame.
  destruct points as [|p ps], points' as [|q qs].
  - reflexivity.
  - exfalso. apply (proj2 (Hsame q)). now left.
  - exfalso. apply (proj1 (Hsame p)). now left.
  - unfold _auto_region_from_points.
    fold (lat_lo p ps) (lat_hi p ps) (lon_lo p ps) (lon_hi p ps).
    fold (lat_lo q qs) (lat_hi q qs) (lon_lo q qs) (lon_hi q qs).
    destruct (extremes_of_same_points p q ps qs Hsame) as [-> [-> [-> ->]]].
    reflexivity.
Qed.

Lemma auto_region_same_points_witness :
  _auto_region_from_points [(1, 2); (3, 4)]
  = _auto_region_from_points [(3, 4); (1, 2); (3, 4)].
Proof.
  apply auto_region_same_points.
  intros x. simpl. tauto.
Defined.
